(** * rsd-summerschool: the notebooks' example code, embedded and verified

    The repository is a set of teaching notebooks.  The functions embedded here
    are the ones its specification speaks of:

    - [Person]'s pydantic validators, [append_to_list]
                                           (ch01dataanddesign/120dataclass)
    - [Calculator]                         (ch01dataanddesign/115typehints)
    - [smart_square], [partial_derivative] (ch02testsandsmells/05Advanced)
    - [mandel1], [mandel4] .. [mandel7]    (ch04performance/020numpy)
    - [Map] and [Greengraph]               (ch01dataanddesign/greengraph)

    Python [int] is [Z], Python [float] and NumPy [float64] are the kernel's
    binary64 [float], [str] is [string], and a raised exception is the [Raise]
    branch of [result]. *)

From Stdlib Require Import ZArith String Ascii List Bool Lia.
From Stdlib Require Import Floats.PrimFloat Floats.FloatOps Floats.SpecFloat.
From Equations Require Import Equations.
From stdpp Require Import gmap strings list.
Import ListNotations.

Local Open Scope string_scope.
Local Open Scope Z_scope.

(** ** Python values, exceptions and results *)

Inductive exn_class :=
| ValueError
| IndexError
| TypeError
| OverflowError
| NotImplementedError
| OtherError (name : string).

(** An exception object: its class and its message. *)
Record exn := Exn { exn_type : exn_class; exn_msg : string }.

Definition exn_class_eqb (c d : exn_class) : bool :=
  match c, d with
  | ValueError, ValueError
  | IndexError, IndexError
  | TypeError, TypeError
  | OverflowError, OverflowError
  | NotImplementedError, NotImplementedError => true
  | OtherError n, OtherError m => String.eqb n m
  | _, _ => false
  end.

(** [except cls:] catches the exceptions [e] with [caught_by cls e]. *)
Definition caught_by (cls : exn_class) (e : exn) : bool :=
  exn_class_eqb (exn_type e) cls.

Inductive result (A : Type) :=
| Ret (a : A)
| Raise (e : exn).
Arguments Ret {A} a.
Arguments Raise {A} e.

Definition rbind {A B} (r : result A) (k : A -> result B) : result B :=
  match r with
  | Ret a => k a
  | Raise e => Raise e
  end.

Declare Scope result_scope.
Delimit Scope result_scope with result.
Notation "'let*' x ':=' r 'in' k" := (rbind r (fun x => k))
  (at level 10, x name, r at level 100, k at level 200) : result_scope.

Definition returns {A} (r : result A) : bool :=
  match r with Ret _ => true | Raise _ => false end.

(** ** Strings: the [in] operator *)

(** [str_in sub s] is Python's [sub in s] on [str]: [sub] occurs in [s] as a
    contiguous substring. *)
Fixpoint str_in (sub s : string) : bool :=
  String.prefix sub s ||
  match s with
  | EmptyString => false
  | String _ s' => str_in sub s'
  end.

Definition has_space (s : string) : Prop := In " "%char (list_ascii_of_string s).

(** ** ch01dataanddesign/120dataclass: the [Person] models *)

Record Person := {
  birth_day : Z;
  birth_month : Z;
  birth_year : Z;
  name : string;
}.

(** [x in xs] on a list of ints. *)
Definition int_in (x : Z) (xs : list Z) : bool := existsb (Z.eqb x) xs.

(** The second [Person]: a [field_validator] on [name]. *)
Module PersonFieldValidated.

Definition validate_name (v : string) : result string :=
  if negb (str_in " " v) then
    Raise (Exn ValueError "the name must have first and last names separated by <space>")
  else Ret v.

End PersonFieldValidated.

(** Python's [a or b] and [a and b] on conditions that can raise: [b] is
    evaluated only when [a] does not decide. *)
Definition or_else (a b : result bool) : result bool :=
  (let* x := a in if x then Ret true else b)%result.

Definition and_then (a b : result bool) : result bool :=
  (let* x := a in if x then b else Ret false)%result.

(** The third [Person]: a [model_validator] of mode "after", declared a
    [classmethod]. *)
Module PersonModelValidated.

(** What the validator receives as [v].  Pydantic runs an "after" validator
    on the validated model: declared a [classmethod], the function gets the
    class as [self] and the [Person] instance as [v].  A call by hand can pass
    a dict of the four fields instead. *)
Inductive argument :=
| Instance (p : Person)
| Dict (d : Person).

(** [v[key]], where [field] is the field [key] names: a pydantic model has
    no [__getitem__]. *)
Definition item {A} (field : Person -> A) (v : argument) : result A :=
  match v with
  | Dict d => Ret (field d)
  | Instance _ => Raise (Exn TypeError "'Person' object is not subscriptable")
  end.

(** A condition on [v[key]]. *)
Definition test {A} (field : Person -> A) (v : argument) (p : A -> bool) : result bool :=
  (let* x := item field v in Ret (p x))%result.

Definition validate_name (v : argument) : result argument :=
  (let* no_space := test name v (fun s => negb (str_in " " s)) in
   if no_space then
     Raise (Exn ValueError "the name must have first and last names separated by <space>")
   else
   let* bad_month :=
     or_else (test birth_month v (fun m => m <? 1)) (test birth_month v (fun m => m >? 12)) in
   if bad_month then Raise (Exn ValueError "birth month should be between 1 and 12")
   else
   let* bad_day :=
     and_then (test birth_month v (fun m => int_in m [1; 3; 5; 7; 8; 10; 12]))
       (or_else (test birth_day v (fun d => d <? 1)) (test birth_day v (fun d => d >? 31))) in
   if bad_day then Raise (Exn ValueError "birth day should be between 1 and 31")
   else
   let* bad_day :=
     and_then (test birth_month v (fun m => int_in m [4; 6; 9; 11]))
       (or_else (test birth_day v (fun d => d <? 1)) (test birth_day v (fun d => d >? 31))) in
   if bad_day then Raise (Exn ValueError "birth day should be between 1 and 30")
   else
   let* february := test birth_month v (fun m => m =? 2) in
   if february then
     let* leap :=
       or_else (test birth_year v (fun y => y mod 400 =? 0))
         (test birth_year v (fun y => y mod 4 =? 0)) in
     if leap then
       let* bad_day :=
         or_else (test birth_day v (fun d => d <? 1)) (test birth_day v (fun d => d >? 29)) in
       if bad_day then Raise (Exn ValueError "birth day should be between 1 and 29")
       else Ret v
     else Raise (Exn ValueError "birth day should be between 1 and 28")
   else Ret v)%result.

Definition accepts (v : argument) : bool := returns (validate_name v).

(** [Person.model_validate(data)], and the constructor on the same keyword
    arguments, on four fields of the declared types: pydantic's own validation passes and builds the instance,
    then the "after" validator runs on it. *)
Definition model_validate (data : Person) : result argument :=
  validate_name (Instance data).

End PersonModelValidated.

(** The calendar rule in the specification's words: which days exist in a
    month of a year. *)
Definition is_leap_year (y : Z) : bool :=
  ((y mod 4 =? 0) && negb (y mod 100 =? 0)) || (y mod 400 =? 0).

Definition between (lo hi x : Z) : bool := (lo <=? x) && (x <=? hi).

Definition birth_day_valid (day month year : Z) : bool :=
  if int_in month [1; 3; 5; 7; 8; 10; 12] then between 1 31 day
  else if int_in month [4; 6; 9; 11] then between 1 30 day
  else if month =? 2 then
    if is_leap_year year then between 1 29 day else between 1 28 day
  else false.

(** ** ch01dataanddesign/115typehints: [Calculator.idx] *)

(** [number: TypeAlias = Union[int, float]]. *)
Inductive number :=
| NInt (n : Z)
| NFloat (x : float).

(** [collections.abc.Sequence]: what [idx] uses of it is [sqnc[i]]. *)
Class Sequence (Sq T : Type) := getitem : Sq -> Z -> result T.

(** [l[i]] on a built-in sequence: a negative index counts from the end, and
    an index outside [-len(l) .. len(l)-1] raises [IndexError]. *)
Definition list_getitem {T} (l : list T) (i : Z) : result T :=
  let n := Z.of_nat (length l) in
  let j := if i <? 0 then i + n else i in
  if (j <? 0) || (n <=? j) then Raise (Exn IndexError "list index out of range")
  else match l !! Z.to_nat j with
       | Some x => Ret x
       | None => Raise (Exn IndexError "list index out of range")
       end.

#[export] Instance list_Sequence T : Sequence (list T) T := list_getitem.

Definition isinstance_float (x : number) : bool :=
  match x with NFloat _ => true | NInt _ => false end.

(** [sqnc[i]]: an int index goes to the sequence; a float index is a
    [TypeError] of the built-in sequences. *)
Definition subscript {Sq T} `{!Sequence Sq T} (sqnc : Sq) (i : number) : result T :=
  match i with
  | NInt n => getitem sqnc n
  | NFloat _ => Raise (Exn TypeError "list indices must be integers or slices, not float")
  end.

Module Calculator.

Record t := { a : number }.

Definition idx {Sq T} `{!Sequence Sq T} (self : t) (sqnc : Sq) : result T :=
  if isinstance_float (a self) then Raise (Exn ValueError "a should be int")
  else
    match subscript sqnc (a self) with
    | Raise e =>
        (* except IndexError: *)
        if caught_by IndexError e then Raise (Exn ValueError "sequence too small")
        else Raise e
    | Ret rslt => Ret rslt
    end.

End Calculator.

(** ** ch02testsandsmells/05Advanced: [smart_square] *)

(** The Python values: the four annotated types, [None], and an object of any
    other class, known by the name of its class.  Of such an object only what
    [smart_square] can observe is modelled: it is no instance of the four
    types. *)
Inductive pyval :=
| PInt (n : Z)
| PFloat (x : float)
| PBool (b : bool)
| PStr (s : string)
| PNone
| PObject (class_name : string).

Inductive pytype := TInt | TFloat | TBool | TStr | TNoneType | TObject (class_name : string).

Definition type_of (v : pyval) : pytype :=
  match v with
  | PInt _ => TInt
  | PFloat _ => TFloat
  | PBool _ => TBool
  | PStr _ => TStr
  | PNone => TNoneType
  | PObject c => TObject c
  end.

(** [bool] is a subclass of [int]; the other classes are unrelated. *)
Definition issubclass (t u : pytype) : bool :=
  match t, u with
  | TInt, TInt | TFloat, TFloat | TBool, TBool | TStr, TStr
  | TNoneType, TNoneType => true
  | TBool, TInt => true
  | TObject c, TObject d => String.eqb c d
  | _, _ => false
  end.

(** [isinstance(v, (t1, ..., tn))]. *)
Definition isinstance (v : pyval) (ts : list pytype) : bool :=
  existsb (issubclass (type_of v)) ts.

Definition class_repr (t : pytype) : string :=
  match t with
  | TInt => "<class 'int'>"
  | TFloat => "<class 'float'>"
  | TBool => "<class 'bool'>"
  | TStr => "<class 'str'>"
  | TNoneType => "<class 'NoneType'>"
  | TObject c => "<class '" ++ c ++ "'>"
  end.

Definition Z_of_bool (b : bool) : Z := if b then 1 else 0.

Section SmartSquare.

(** The built-in conversions [float(s)] of a string ([None]: the string is
    not a float literal) and [float(n)] of an int (it can overflow). *)
Variable float_of_str : string -> option float.
Variable float_of_int : Z -> result float.

(** [float(v)]. *)
Definition py_float (v : pyval) : result float :=
  match v with
  | PInt n => float_of_int n
  | PFloat x => Ret x
  | PBool b => Ret (if b then 1%float else 0%float)
  | PStr s =>
      match float_of_str s with
      | Some x => Ret x
      | None => Raise (Exn ValueError ("could not convert string to float: " ++ s))
      end
  | PNone => Raise (Exn TypeError "float() argument must be a string or a real number, not 'NoneType'")
  | PObject c =>
      Raise (Exn TypeError
               ("float() argument must be a string or a real number, not '" ++ c ++ "'"))
  end.

(** [v * w] on the numbers; a [bool] operand counts as the int 0 or 1.  The
    last case is [None] or a plain object as an operand; [smart_square]
    multiplies numbers only. *)
Definition py_mul (v w : pyval) : result pyval :=
  match v, w with
  | PInt n, PInt m => Ret (PInt (n * m))
  | PInt n, PBool c => Ret (PInt (n * Z_of_bool c))
  | PBool b, PInt m => Ret (PInt (Z_of_bool b * m))
  | PBool b, PBool c => Ret (PInt (Z_of_bool b * Z_of_bool c))
  | PFloat x, PFloat y => Ret (PFloat (x * y)%float)
  | PFloat x, (PInt _ | PBool _) =>
      (let* y := py_float w in Ret (PFloat (x * y)%float))%result
  | (PInt _ | PBool _), PFloat y =>
      (let* x := py_float v in Ret (PFloat (x * y)%float))%result
  | _, _ => Raise (Exn TypeError "unsupported operand type(s) for *")
  end.

Definition smart_square (a : pyval) : result pyval :=
  if isinstance a [TFloat; TInt] then py_mul a a
  else if isinstance a [TStr; TBool] then
    match (let* x := py_float a in
           let* y := py_float a in
           Ret (PFloat (x * y)%float))%result with
    | Ret result => Ret result
    | Raise e =>
        (* except ValueError: *)
        if caught_by ValueError e then
          Raise (Exn ValueError
                   ("a should be of type float/int or convertible to float; got "
                      ++ class_repr (type_of a)))
        else Raise e
    end
  else if negb (isinstance a [TFloat; TInt; TBool; TStr]) then
    Raise (Exn NotImplementedError EmptyString)
  else Ret PNone.

Definition is_number (v : pyval) : bool :=
  match v with PInt _ | PFloat _ => true | _ => false end.

End SmartSquare.

(** [float] of the two literals of the notebook's test module. *)
Definition float_of_test_literal (s : string) : option float :=
  if String.eqb s "2" then Some 2%float else None.

(** ** Floats, complex numbers and NumPy arrays *)

(** [float(n)] of a non-overflowing int: the nearest binary64, ties to even. *)
Definition float_of_Z (n : Z) : float := SF2Prim (binary_normalize prec emax n 0 false).

(** [float(n)] of an int, also where NumPy stores an int into a [float64]
    array: an int that rounds to 2^1024 or beyond is an [OverflowError]. *)
Definition float_of_int (n : Z) : result float :=
  if 2 ^ 1024 - 2 ^ 970 <=? Z.abs n
  then Raise (Exn OverflowError "int too large to convert to float")
  else Ret (float_of_Z n).

(** A [complex] / [complex128] value. *)
Record complex := Cx { re : float; im : float }.

Definition cadd (z w : complex) : complex :=
  Cx (re z + re w)%float (im z + im w)%float.

(** The product, each of its four multiplications and two additions rounded
    on its own (no fused multiply-add). *)
Definition cmul (z w : complex) : complex :=
  Cx (re z * re w - im z * im w)%float (re z * im w + im z * re w)%float.

(** [np.conj]. *)
Definition conj (z : complex) : complex := Cx (re z) (- im z)%float.

(** NumPy's [z > w] on [complex128]: lexicographic, real part first, false as
    soon as an imaginary part is NaN while the real parts differ. *)
Definition is_nan (x : float) : bool := negb (x =? x)%float.

Definition complex_gt (z w : complex) : bool :=
  ((re w <? re z)%float && negb (is_nan (im z)) && negb (is_nan (im w)))
  || ((re z =? re w)%float && (im w <? im z)%float).

(** An n-dimensional array: its shape and its elements in row-major order. *)
Record ndarray (A : Type) := NdArray { shape : list nat; flat : list A }.
Arguments NdArray {A} shape flat.
Arguments shape {A} _.
Arguments flat {A} _.

Definition size_of (sh : list nat) : nat := fold_right Nat.mul 1%nat sh.

Definition shape_eqb (s1 s2 : list nat) : bool :=
  bool_decide (s1 = s2).

(** [np.zeros(shape)]. *)
Definition np_zeros (sh : list nat) : ndarray float :=
  NdArray sh (repeat 0%float (size_of sh)).

(** An element-wise unary operation. *)
Definition nd_map {A B} (f : A -> B) (x : ndarray A) : ndarray B :=
  NdArray (shape x) (map f (flat x)).

(** An element-wise binary operation on operands of one shape (the only case
    the functions below reach; other shapes would go through broadcasting). *)
Definition nd_map2 {A B C} (f : A -> B -> C) (x : ndarray A) (y : ndarray B)
  : result (ndarray C) :=
  if shape_eqb (shape x) (shape y)
  then Ret (NdArray (shape x) (map (fun p => f (fst p) (snd p)) (combine (flat x) (flat y))))
  else Raise (Exn ValueError "operands could not be broadcast together").

(** The elements of [xs] at the positions where [mask] is true. *)
Fixpoint select {A} (mask : list bool) (xs : list A) : list A :=
  match mask, xs with
  | b :: mask', x :: xs' => if b then x :: select mask' xs' else select mask' xs'
  | _, _ => []
  end.

(** [x[mask]] for a boolean array [mask]: the mask must have the shape of [x];
    the result is one-dimensional. *)
Definition mask_select {A} (x : ndarray A) (mask : ndarray bool) : result (ndarray A) :=
  if shape_eqb (shape x) (shape mask)
  then let picked := select (flat mask) (flat x) in
       Ret (NdArray [length picked] picked)
  else Raise (Exn IndexError "boolean index did not match indexed array").

(** An array of shape [(2, *grid_shape)] holding a row index and a column
    index per cell, as [np.mgrid] builds and [indices[:, mask]] filters. *)
Record index_array := IndexArray {
  grid_shape : list nat;
  row_of : list Z;
  col_of : list Z;
}.

(** [np.mgrid[0:h, 0:w]]. *)
Definition np_mgrid (h w : nat) : index_array :=
  IndexArray [h; w]
    (flat_map (fun i => repeat (Z.of_nat i) w) (seq 0 h))
    (flat_map (fun _ => map Z.of_nat (seq 0 w)) (seq 0 h)).

(** [indices[:, mask]] for a mask with two axes, as the grid has: the mask
    must have the shape of the grid. *)
Definition index_select (ix : index_array) (mask : ndarray bool) : result index_array :=
  if shape_eqb (grid_shape ix) (shape mask)
  then let rows := select (flat mask) (row_of ix) in
       Ret (IndexArray [length rows] rows (select (flat mask) (col_of ix)))
  else Raise (Exn IndexError "boolean index did not match indexed array").

(** An index into an axis of length [n]: negative indices count from the end. *)
Definition axis_index (n : nat) (i : Z) : option nat :=
  let j := if i <? 0 then i + Z.of_nat n else i in
  if (0 <=? j) && (j <? Z.of_nat n) then Some (Z.to_nat j) else None.

(** [xs[start : start + len] = v]. *)
Fixpoint fill {A} (start len : nat) (v : A) (xs : list A) : list A :=
  match len with
  | O => xs
  | S len' => <[start := v]> (fill (S start) len' v xs)
  end.

Fixpoint assign_cells {A} (h w block : nat) (cells : list (Z * Z)) (v : A)
  (xs : list A) : result (list A) :=
  match cells with
  | [] => Ret xs
  | (r, c) :: cells' =>
      match axis_index h r, axis_index w c with
      | Some i, Some j => assign_cells h w block cells' v (fill ((i * w + j) * block) block v xs)
      | _, _ => Raise (Exn IndexError "index is out of bounds")
      end
  end.

(** [x[rows, cols] = v] with two integer index arrays of one length. *)
Definition fancy_assign {A} (x : ndarray A) (rows cols : list Z) (v : A)
  : result (ndarray A) :=
  match shape x with
  | h :: w :: rest =>
      (let* cells := assign_cells h w (size_of rest) (combine rows cols) v (flat x) in
       Ret (NdArray (shape x) cells))%result
  | _ => Raise (Exn IndexError "too many indices for array")
  end.

(** [t[i]] on the tuple [shape]. *)
Definition shape_getitem (sh : list nat) (i : nat) : result nat :=
  match sh !! i with
  | Some n => Ret n
  | None => Raise (Exn IndexError "tuple index out of range")
  end.

(** ** ch04performance/020numpy: the Mandelbrot functions *)

Definition inspect {A : Type} (x : A) : { y : A | x = y } := exist _ x eq_refl.

Section Mandel1.

(** The interpreter's [abs(z)] and [z ** n] on a complex scalar: both are
    computed by the C library and may raise [OverflowError]. *)
Variable complex_abs : complex -> result float.
Variable complex_pow : complex -> Z -> result complex.

(** The [while] loop of [mandel1], entered with the current [value] and
    [limit]. *)
Equations? mandel1_while (position value : complex) (limit : Z) : result Z
  by wf (Z.to_nat limit) lt :=
  mandel1_while position value limit with complex_abs value => {
    | Raise e => Raise e
    | Ret m with (m <? 2)%float => {
      | false => Ret limit
      | true with complex_pow value 2 => {
        | Raise e => Raise e
        | Ret sq with inspect (limit - 1 <? 0) => {
          | exist _ true _ => Ret 0
          | exist _ false H =>
              mandel1_while position (cadd sq position) (limit - 1) } } } }.
Proof. apply Z.ltb_ge in H. lia. Qed.

Definition mandel1 (position : complex) (limit : Z) : result Z :=
  mandel1_while position position limit.

(** Where an exception of [mandel1] can come from: one of the two calls. *)
Definition raised_by_arithmetic (e : exn) : Prop :=
  exists v, complex_abs v = Raise e \/ complex_pow v 2 = Raise e.

End Mandel1.

(** A textbook instance of the scalar arithmetic: the modulus by a square
    root, the power by repeated multiplication, neither raising. *)
Definition sqrt_abs (z : complex) : result float :=
  Ret (sqrt (re z * re z + im z * im z))%float.

Fixpoint pow_by_mul (z : complex) (n : nat) : complex :=
  match n with
  | O => Cx 1 0
  | S O => z
  | S n' => cmul z (pow_by_mul z n')
  end.

Definition mul_pow (z : complex) (n : Z) : result complex := Ret (pow_by_mul z (Z.to_nat n)).

(** The module-level names a function body can read. *)
Record globals := { values : ndarray complex }.

(** The local variables of [mandel7] that its loop updates. *)
Record mandel7_locals := {
  positions : ndarray complex;
  value : ndarray complex;
  indices : index_array;
  diverged_at_count : ndarray float;
}.

(** One pass through the body of [mandel7]'s loop, after [limit -= 1].  The
    last statement stores the int [limit] into a [float64] array: NumPy
    converts it first, whatever the indices select. *)
Definition mandel7_body (st : mandel7_locals) (limit : Z) : result mandel7_locals :=
  (let* value := nd_map2 (fun v p => cadd (cmul v v) p) (value st) (positions st) in
   let diverging_now := nd_map (fun v => complex_gt (cmul v (conj v)) (Cx 4 0)) value in
   let* diverging_now_indices := index_select (indices st) diverging_now in
   let carry_on := nd_map negb diverging_now in
   let* value := mask_select value carry_on in
   let* indices := index_select (indices st) carry_on in
   let* positions := mask_select (positions st) carry_on in
   let* count := float_of_int limit in
   let* diverged_at_count :=
     fancy_assign (diverged_at_count st)
       (row_of diverging_now_indices) (col_of diverging_now_indices) count in
   Ret {| positions := positions; value := value; indices := indices;
          diverged_at_count := diverged_at_count |})%result.

Equations? mandel7_while (st : mandel7_locals) (limit : Z) : result (ndarray float)
  by wf (Z.to_nat limit) lt :=
  mandel7_while st limit with inspect (limit >? 0) => {
    | exist _ false _ => Ret (diverged_at_count st)
    | exist _ true H with mandel7_body st (limit - 1) => {
      | Raise e => Raise e
      | Ret st' => mandel7_while st' (limit - 1) } }.
Proof. apply Z.gtb_lt in H. lia. Qed.

(** [mandel7(position, limit)], run with the module's globals [g]: the index
    grid is built from the shape of the global [values].  [position] has two
    axes, as the two index arrays of the loop's last statement need. *)
Definition mandel7 (g : globals) (position : ndarray complex) (limit : Z)
  : result (ndarray float) :=
  (let positions := nd_map (cadd (Cx 0 0)) position in
   let value := nd_map (cadd (Cx 0 0)) position in
   let* h := shape_getitem (shape (values g)) 0 in
   let* w := shape_getitem (shape (values g)) 1 in
   let indices := np_mgrid h w in
   let diverged_at_count := np_zeros (shape position) in
   mandel7_while {| positions := positions; value := value; indices := indices;
                    diverged_at_count := diverged_at_count |} limit)%result.

(** ** ch01dataanddesign/greengraph: [Map] and [Greengraph] *)

Definition bytes := list Byte.byte.

(** A [geopy] location: [loc[0]] is the address, [loc[1]] the pair
    (latitude, longitude). *)
Record location := { address : string; point : float * float }.

Record http_request := { url : string; params : gmap string pyval }.

(** The calls that leave the process, each logged with what came back. *)
Inductive event :=
| EvGeocode (query : string) (outcome : result (option (list location)))
| EvHttpGet (req : http_request) (outcome : result bytes)
| EvImread (data : bytes) (outcome : result (ndarray Z)).

Definition trace := list event.

(** A computation on an object of type [St] that may call out: it reads and
    updates the object, extends the trace, and returns or raises. *)
Definition io (St A : Type) : Type := St -> trace -> result A * St * trace.

Definition io_ret {St A} (a : A) : io St A := fun st w => (Ret a, st, w).

Definition io_bind {St A B} (m : io St A) (k : A -> io St B) : io St B :=
  fun st w =>
    match m st w with
    | (Ret a, st', w') => k a st' w'
    | (Raise e, st', w') => (Raise e, st', w')
    end.

(** A computation that neither calls out nor touches the object. *)
Definition io_lift {St A} (r : result A) : io St A := fun st w => (r, st, w).

Definition io_get {St} : io St St := fun st w => (Ret st, st, w).
Definition io_modify {St} (f : St -> St) : io St unit := fun st w => (Ret tt, f st, w).

(** Running a computation that works on a fresh object of its own. *)
Definition io_fresh {St A} (m : io unit A) : io St A :=
  fun st w => let '(r, _, w') := m tt w in (r, st, w').

Declare Scope io_scope.
Delimit Scope io_scope with io.
Notation "'do*' x ':=' m 'in' k" := (io_bind m (fun x => k))
  (at level 10, x name, m at level 100, k at level 200) : io_scope.

(** [[f(x) for x in xs]]: the calls run in order and the first exception
    ends the comprehension. *)
Fixpoint io_for {St A B} (f : A -> io St B) (xs : list A) : io St (list B) :=
  match xs with
  | [] => io_ret []
  | x :: xs' =>
      (do* y := f x in
       do* ys := io_for f xs' in
       io_ret (y :: ys))%io
  end.

(** [try: m except Exception as e: handler(e)]: none of the methods below
    uses it. *)
Definition io_try {St A} (m : io St A) (handler : exn -> io St A) : io St A :=
  fun st w =>
    match m st w with
    | (Ret a, st', w') => (Ret a, st', w')
    | (Raise e, st', w') => handler e st' w'
    end.

(** The exception an outside call ended with, if it raised. *)
Definition outcome_exn (ev : event) : option exn :=
  match ev with
  | EvGeocode _ (Raise e) | EvHttpGet _ (Raise e) | EvImread _ (Raise e) => Some e
  | _ => None
  end.

Definition is_http_get (ev : event) : bool :=
  match ev with EvHttpGet _ _ => true | _ => false end.

(** No call of [evs] raised. *)
Definition all_returned (evs : list event) : Prop :=
  Forall (fun ev => outcome_exn ev = None) evs.

(** How the calls of a run relate to its result when nothing is caught: either
    every call returned, or the last call raised [e], nothing was called after
    it, and the run raised that same [e]. *)
Inductive uncaught {A} : list event -> result A -> Prop :=
| uncaught_quiet evs r :
    all_returned evs -> uncaught evs r
| uncaught_raised evs ev e :
    all_returned evs -> outcome_exn ev = Some e -> uncaught (evs ++ [ev]) (Raise e).

(** [m] extends the trace, and passes on what its calls raise. *)
Definition propagates {St A} (m : io St A) : Prop :=
  forall st w, exists evs,
    snd (m st w) = (w ++ evs)%list /\ uncaught evs (fst (fst (m st w))).

Definition math_pi : float := 0x1.921fb54442d18p+1%float.

(** [math.radians]. *)
Definition math_radians (x : float) : float := (x * (math_pi / 180))%float.

(** [2.0 ** zoom] for an int [zoom]: the exponent is converted to a float
    first (an int that rounds to 2^1024 or beyond is an [OverflowError]); the
    power is exact, zero on underflow, and an [OverflowError] from 2.0 ** 1024
    on. *)
Definition float_pow2 (zoom : Z) : result float :=
  if 2 ^ 1024 - 2 ^ 970 <=? Z.abs zoom
  then Raise (Exn OverflowError "int too large to convert to float")
  else if 1024 <=? zoom
  then Raise (Exn OverflowError "(34, 'Numerical result out of range')")
  else Ret (Z.ldexp 1%float zoom).

(** [int(x)] of a float: truncation towards zero. *)
Definition py_int (x : float) : result Z :=
  match Prim2SF x with
  | S754_zero _ => Ret 0
  | S754_finite s m e =>
      let v := if 0 <=? e then Z.shiftl (Z.pos m) e else Z.shiftr (Z.pos m) (- e) in
      Ret (if s then - v else v)
  | S754_infinity _ => Raise (Exn OverflowError "cannot convert float infinity to integer")
  | S754_nan => Raise (Exn ValueError "cannot convert float NaN to integer")
  end.

Record Map := { image : bytes; pixels : ndarray Z }.

(** [x[:, :, k]]: the [k]-th channel of an array with three axes or more. *)
Fixpoint channel_cells {A} (cells : nat) (c block k : nat) (xs : list A) : list A :=
  match cells with
  | O => []
  | S cells' =>
      (firstn block (skipn (k * block) xs)
       ++ channel_cells cells' c block k (skipn (c * block) xs))%list
  end.

Definition channel {A} (x : ndarray A) (k : nat) : result (ndarray A) :=
  match shape x with
  | h :: w :: c :: rest =>
      if (k <? c)%nat
      then Ret (NdArray (h :: w :: rest)
                        (channel_cells (h * w) c (size_of rest) k (flat x)))
      else Raise (Exn IndexError "index is out of bounds for axis 2")
  | _ => Raise (Exn IndexError "too many indices for array")
  end.

(** [np.sum] of a boolean array: the number of true elements. *)
Definition np_sum (x : ndarray bool) : Z :=
  fold_right (fun b n => Z_of_bool b + n) 0 (flat x).

(** A method of [Map]: its result, and the object after the call. *)
Definition method (A : Type) : Type := Map -> result A * Map.

(** The query parameters [Map.__init__] sends. *)
Definition tile_params (x y zoom : Z) (satellite : bool) : gmap string pyval :=
  let params : gmap string pyval :=
    <["z" := PInt zoom]> (<["y" := PInt y]> (<["x" := PInt x]> ∅)) in
  if satellite then <["lyrs" := PStr "s"]> params else params.

Section Greengraph.

(** The C library's [tan] and [asinh] behind [math.tan] and [math.asinh]. *)
Variable math_tan : float -> result float.
Variable math_asinh : float -> result float.

(** [np.linspace(start, stop, num)]. *)
Variable np_linspace : float -> float -> Z -> result (list float).

(** What the geocoding service and the tile server answer, given the calls
    made so far, and the PNG decoder behind [iio.imread]. *)
Variable geocoder : trace -> string -> result (option (list location)).
Variable tile_server : trace -> http_request -> result bytes.
Variable imread : bytes -> result (ndarray Z).

Definition geocode {St} (query : string) : io St (option (list location)) :=
  fun st w => let r := geocoder w query in (r, st, (w ++ [EvGeocode query r])%list).

Definition requests_get {St} (base : string) (params : gmap string pyval) : io St bytes :=
  fun st w =>
    let req := {| url := base; params := params |} in
    let r := tile_server w req in (r, st, (w ++ [EvHttpGet req r])%list).

Definition iio_imread {St} (content : bytes) : io St (ndarray Z) :=
  fun st w => let r := imread content in (r, st, (w ++ [EvImread content r])%list).

Definition deg2num (latitude longitude : float) (zoom : Z) : result (Z * Z) :=
  (let lat_rad := math_radians latitude in
   let* n := float_pow2 zoom in
   let* x_tiles_coord := py_int ((longitude + 180) / 360 * n)%float in
   let* t := math_tan lat_rad in
   let* s := math_asinh t in
   let* y_tiles_coord := py_int ((1 - s / math_pi) / 2 * n)%float in
   Ret (x_tiles_coord, y_tiles_coord))%result.

(** [Map.__init__]: the object under construction is the computation's
    state; both fields are unset until assigned. *)
Definition Map__init__ (latitude longitude : float) (satellite : bool) (zoom : Z)
  : io unit Map :=
  (let base := "https://mt0.google.com/vt?" in
   do* xy := io_lift (deg2num latitude longitude zoom) in
   let params : gmap string pyval :=
     <["z" := PInt zoom]> (<["y" := PInt (snd xy)]> (<["x" := PInt (fst xy)]> ∅)) in
   let params := if satellite then <["lyrs" := PStr "s"]> params else params in
   do* image := requests_get base params in
   do* pixels := iio_imread image in
   io_ret {| image := image; pixels := pixels |})%io.

(** What ties the two fields of a [Map] together. *)
Definition Map_invariant (m : Map) : Prop := imread (image m) = Ret (pixels m).

Definition Map_deg2num (latitude longitude : float) (zoom : Z) : method (Z * Z) :=
  fun self => (deg2num latitude longitude zoom, self).

Definition Map_green (threshold : float) : method (ndarray bool) :=
  fun self =>
    ((let red := 0%nat in let green := 1%nat in let blue := 2%nat in
      let* g := channel (pixels self) green in
      let* r := channel (pixels self) red in
      let* greener_than_red :=
        nd_map2 (fun g r => (threshold * float_of_Z r <? float_of_Z g)%float) g r in
      let* g := channel (pixels self) green in
      let* b := channel (pixels self) blue in
      let* greener_than_blue :=
        nd_map2 (fun g b => (threshold * float_of_Z b <? float_of_Z g)%float) g b in
      nd_map2 andb greener_than_red greener_than_blue)%result,
     self).

Definition Map_count_green (threshold : float) : method Z :=
  fun self =>
    let '(green, self) := Map_green threshold self in
    ((let* green := green in Ret (np_sum green))%result, self).

Record Greengraph := {
  start : string;
  end_ : string;
  steps : option Z;
  green_at_each_location : option (list Z);
}.

Definition Greengraph__init__ (start end_ : string) : Greengraph :=
  {| start := start; end_ := end_; steps := None; green_at_each_location := None |}.

Definition geolocate (place : string) : io Greengraph (float * float) :=
  (do* found := geocode place in
   do* first :=
     io_lift match found with
             | Some locations => list_getitem locations 0
             | None => Raise (Exn TypeError "'NoneType' object is not subscriptable")
             end in
   io_ret (point first))%io.

Definition location_sequence (start end_ : float * float) (steps : Z)
  : result (list (float * float)) :=
  (let* lats := np_linspace (fst start) (fst end_) steps in
   let* longs := np_linspace (snd start) (snd end_) steps in
   if (length lats =? length longs)%nat then Ret (combine lats longs)
   else Raise (Exn ValueError "all the input array dimensions must match exactly"))%result.

Definition green_between (steps : Z) : io Greengraph (list Z) :=
  (do* _ := io_modify (fun self => {| start := start self; end_ := end_ self;
                                      steps := Some steps;
                                      green_at_each_location := green_at_each_location self |}) in
   do* self := io_get in
   do* s := geolocate (start self) in
   do* e := geolocate (end_ self) in
   do* sequence := io_lift (location_sequence s e steps) in
   do* maps := io_for (fun loc => io_fresh (Map__init__ (fst loc) (snd loc) true 10)) sequence in
   do* counts := io_for (fun current_map =>
                           io_lift (fst (Map_count_green 0x1.199999999999ap+0%float current_map)))
                        maps in
   do* _ := io_modify (fun self => {| start := start self; end_ := end_ self;
                                      steps := Some steps;
                                      green_at_each_location := Some counts |}) in
   io_ret counts)%io.

End Greengraph.

(** ** A closed environment to run the code in *)

(** First-order stand-ins for the C library ([tan x] and [asinh x] are [x] up
    to the third order, and exactly at 0), a tile server that answers every
    request with the same three bytes, and a decoder that reads them as one
    pixel. *)
Definition tan_first_order (x : float) : result float := Ret x.
Definition asinh_first_order (x : float) : result float := Ret x.

Definition constant_server (w : trace) (req : http_request) : result bytes :=
  Ret [Byte.x0a; Byte.xc8; Byte.x1e].

Definition raw_rgb_decoder (content : bytes) : result (ndarray Z) :=
  Ret (NdArray [1; 1; 3]%nat (map (fun b => Z.of_N (Byte.to_N b)) content)).

(** A geocoding service that is down. *)
Definition failing_geocoder (w : trace) (query : string)
  : result (option (list location)) :=
  Raise (Exn (OtherError "GeocoderUnavailable") "Service not available").

Definition origin_map : Map :=
  {| image := [Byte.x0a; Byte.xc8; Byte.x1e]; pixels := NdArray [1; 1; 3]%nat [10; 200; 30] |}.

(** ** Arrays: well-formedness, and what a count array holds *)

(** An array holds as many elements as its shape says. *)
Definition well_formed {A} (x : ndarray A) : Prop :=
  length (flat x) = size_of (shape x).

(** An entry of [diverged_at_count]: still zero, or the value [limit] had when
    the point diverged, one of [0 .. limit - 1]. *)
Definition is_count (limit : Z) (x : float) : Prop :=
  x = 0%float \/ exists k, 0 <= k < limit /\ x = float_of_Z k.

Definition in_axis (n : nat) (i : Z) : Prop := 0 <= i < Z.of_nat n.

(** What the loop of [mandel7] keeps true of its locals, for a count array of
    shape [(h, w)] and an initial limit [L]: the three working arrays select
    the same cells, their indices stay inside the count array, and the counts
    are counts. *)
Definition mandel7_invariant (h w : nat) (L : Z) (st : mandel7_locals) : Prop :=
  shape (positions st) = shape (value st) /\
  grid_shape (indices st) = shape (value st) /\
  length (flat (positions st)) = length (flat (value st)) /\
  length (row_of (indices st)) = length (flat (value st)) /\
  length (col_of (indices st)) = length (flat (value st)) /\
  Forall (in_axis h) (row_of (indices st)) /\
  Forall (in_axis w) (col_of (indices st)) /\
  shape (diverged_at_count st) = [h; w] /\
  length (flat (diverged_at_count st)) = (h * w)%nat /\
  Forall (is_count L) (flat (diverged_at_count st)).

(** ** ch04performance/020numpy: the other array versions *)

(** [xs] with [v] at the positions where [mask] is true. *)
Fixpoint assign_where {A} (mask : list bool) (v : A) (xs : list A) : list A :=
  match mask, xs with
  | b :: mask', x :: xs' => (if b then v else x) :: assign_where mask' v xs'
  | _, _ => xs
  end.

(** [x[mask] = v] for a boolean array [mask] and a scalar [v]. *)
Definition mask_assign {A} (x : ndarray A) (mask : ndarray bool) (v : A)
  : result (ndarray A) :=
  if shape_eqb (shape x) (shape mask)
  then Ret (NdArray (shape x) (assign_where (flat mask) v (flat x)))
  else Raise (Exn IndexError "boolean index did not match indexed array").

(** [xs] with the elements of [ys], in order, at the positions where [mask]
    is true. *)
Fixpoint scatter {A} (mask : list bool) (ys : list A) (xs : list A) : list A :=
  match mask, xs with
  | true :: mask', x :: xs' =>
      match ys with
      | y :: ys' => y :: scatter mask' ys' xs'
      | [] => x :: xs'
      end
  | false :: mask', x :: xs' => x :: scatter mask' ys xs'
  | _, _ => xs
  end.

(** [x[mask] = y] for a boolean array [mask] and a one-dimensional [y] with
    one element per selected cell. *)
Definition mask_scatter {A} (x : ndarray A) (mask : ndarray bool) (y : ndarray A)
  : result (ndarray A) :=
  if shape_eqb (shape x) (shape mask)
  then if (length (flat y) =? length (select (flat mask) (flat x)))%nat
       then Ret (NdArray (shape x) (scatter (flat mask) (flat y) (flat x)))
       else Raise (Exn ValueError
                     "NumPy boolean array indexing assignment cannot assign the input values")
  else Raise (Exn IndexError "boolean index did not match indexed array").

(** [np.ones(shape, dtype='bool')] and [np.zeros(shape, dtype='bool')]. *)
Definition np_full {A} (sh : list nat) (v : A) : ndarray A :=
  NdArray sh (repeat v (size_of sh)).

(** [x[...] = ...] where [x] is the result of arithmetic.  On operands
    without axes NumPy's arithmetic gives a scalar, not an array, and a
    scalar has no item assignment. *)
Definition item_assignable {A} (x : ndarray A) : result unit :=
  match shape x with
  | [] => Raise (Exn TypeError "'numpy.complex128' object does not support item assignment")
  | _ :: _ => Ret tt
  end.

(** The locals the loops of [mandel4] and [mandel5] update. *)
Record mandel5_locals := {
  value5 : ndarray complex;
  diverged_at_count5 : ndarray float;
}.

Section Mandel4.

(** NumPy's [abs] on [complex128]: the C library's [hypot], which does not
    raise. *)
Variable np_abs : complex -> float.

Definition mandel4_body (position : ndarray complex) (st : mandel5_locals) (limit : Z)
  : result mandel5_locals :=
  (let* value := nd_map2 (fun v p => cadd (cmul v v) p) (value5 st) position in
   let diverging := nd_map (fun v => (2 <? np_abs v)%float) value in
   let* first_diverged_this_time :=
     nd_map2 andb diverging (nd_map (fun c => (c =? 0)%float) (diverged_at_count5 st)) in
   let* count := float_of_int limit in
   let* diverged_at_count :=
     mask_assign (diverged_at_count5 st) first_diverged_this_time count in
   let* _ := item_assignable value in
   let* value := mask_assign value diverging (Cx 2 0) in
   Ret {| value5 := value; diverged_at_count5 := diverged_at_count |})%result.

Equations? mandel4_while (position : ndarray complex) (st : mandel5_locals) (limit : Z)
  : result (ndarray float) by wf (Z.to_nat limit) lt :=
  mandel4_while position st limit with inspect (limit >? 0) => {
    | exist _ false _ => Ret (diverged_at_count5 st)
    | exist _ true H with mandel4_body position st (limit - 1) => {
      | Raise e => Raise e
      | Ret st' => mandel4_while position st' (limit - 1) } }.
Proof. apply Z.gtb_lt in H. lia. Qed.

Definition mandel4 (position : ndarray complex) (limit : Z) : result (ndarray float) :=
  mandel4_while position
    {| value5 := position; diverged_at_count5 := np_zeros (shape position) |} limit.

End Mandel4.

Definition mandel5_body (position : ndarray complex) (st : mandel5_locals) (limit : Z)
  : result mandel5_locals :=
  (let* value := nd_map2 (fun v p => cadd (cmul v v) p) (value5 st) position in
   let diverging := nd_map (fun v => complex_gt (cmul v (conj v)) (Cx 4 0)) value in
   let* first_diverged_this_time :=
     nd_map2 andb diverging (nd_map (fun c => (c =? 0)%float) (diverged_at_count5 st)) in
   let* count := float_of_int limit in
   let* diverged_at_count :=
     mask_assign (diverged_at_count5 st) first_diverged_this_time count in
   let* _ := item_assignable value in
   let* value := mask_assign value diverging (Cx 2 0) in
   Ret {| value5 := value; diverged_at_count5 := diverged_at_count |})%result.

Equations? mandel5_while (position : ndarray complex) (st : mandel5_locals) (limit : Z)
  : result (ndarray float) by wf (Z.to_nat limit) lt :=
  mandel5_while position st limit with inspect (limit >? 0) => {
    | exist _ false _ => Ret (diverged_at_count5 st)
    | exist _ true H with mandel5_body position st (limit - 1) => {
      | Raise e => Raise e
      | Ret st' => mandel5_while position st' (limit - 1) } }.
Proof. apply Z.gtb_lt in H. lia. Qed.

Definition mandel5 (position : ndarray complex) (limit : Z) : result (ndarray float) :=
  mandel5_while position
    {| value5 := position; diverged_at_count5 := np_zeros (shape position) |} limit.

(** The locals the loop of [mandel6] updates.  [value] starts as
    [np.zeros(position.shape) + position], the result of arithmetic. *)
Record mandel6_locals := {
  value6 : ndarray complex;
  calculating : ndarray bool;
  diverged_at_count6 : ndarray float;
}.

Definition mandel6_body (position : ndarray complex) (st : mandel6_locals) (limit : Z)
  : result mandel6_locals :=
  (let* v := mask_select (value6 st) (calculating st) in
   let* p := mask_select position (calculating st) in
   let* stepped := nd_map2 (fun v p => cadd (cmul v v) p) v p in
   let* _ := item_assignable (value6 st) in
   let* value := mask_scatter (value6 st) (calculating st) stepped in
   let diverging_now := np_full (shape position) false in
   let* v := mask_select value (calculating st) in
   let* v' := mask_select value (calculating st) in
   let* prod := nd_map2 (fun v v' => cmul v (conj v')) v v' in
   let* diverging_now :=
     mask_scatter diverging_now (calculating st)
       (nd_map (fun z => complex_gt z (Cx 4 0)) prod) in
   let* calculating := nd_map2 andb (calculating st) (nd_map negb diverging_now) in
   let* count := float_of_int limit in
   let* diverged_at_count :=
     mask_assign (diverged_at_count6 st) diverging_now count in
   Ret {| value6 := value; calculating := calculating;
          diverged_at_count6 := diverged_at_count |})%result.

Equations? mandel6_while (position : ndarray complex) (st : mandel6_locals) (limit : Z)
  : result (ndarray float) by wf (Z.to_nat limit) lt :=
  mandel6_while position st limit with inspect (limit >? 0) => {
    | exist _ false _ => Ret (diverged_at_count6 st)
    | exist _ true H with mandel6_body position st (limit - 1) => {
      | Raise e => Raise e
      | Ret st' => mandel6_while position st' (limit - 1) } }.
Proof. apply Z.gtb_lt in H. lia. Qed.

Definition mandel6 (position : ndarray complex) (limit : Z) : result (ndarray float) :=
  mandel6_while position
    {| value6 := nd_map (cadd (Cx 0 0)) position;
       calculating := np_full (shape position) true;
       diverged_at_count6 := np_zeros (shape position) |} limit.

(** The body shared, up to the divergence test, by [mandel4] and [mandel5];
    [mandel4_body_counting] and [mandel5_body_counting] state that the two
    bodies are instances of it. *)
Definition counting_body (diverges : complex -> bool) (position : ndarray complex)
  (st : mandel5_locals) (limit : Z) : result mandel5_locals :=
  (let* value := nd_map2 (fun v p => cadd (cmul v v) p) (value5 st) position in
   let diverging := nd_map diverges value in
   let* first_diverged_this_time :=
     nd_map2 andb diverging (nd_map (fun c => (c =? 0)%float) (diverged_at_count5 st)) in
   let* count := float_of_int limit in
   let* diverged_at_count :=
     mask_assign (diverged_at_count5 st) first_diverged_this_time count in
   let* _ := item_assignable value in
   let* value := mask_assign value diverging (Cx 2 0) in
   Ret {| value5 := value; diverged_at_count5 := diverged_at_count |})%result.

(** What the loops of [mandel4] and [mandel5] keep true of their locals. *)
Definition counting_invariant (position : ndarray complex) (L : Z) (st : mandel5_locals)
  : Prop :=
  shape (value5 st) = shape position /\
  length (flat (value5 st)) = length (flat position) /\
  shape (diverged_at_count5 st) = shape position /\
  length (flat (diverged_at_count5 st)) = length (flat position) /\
  Forall (is_count L) (flat (diverged_at_count5 st)).

(** What the loop of [mandel6] keeps true of its locals. *)
Definition mandel6_invariant (position : ndarray complex) (L : Z) (st : mandel6_locals)
  : Prop :=
  shape (value6 st) = shape position /\
  length (flat (value6 st)) = length (flat position) /\
  shape (calculating st) = shape position /\
  length (flat (calculating st)) = length (flat position) /\
  shape (diverged_at_count6 st) = shape position /\
  length (flat (diverged_at_count6 st)) = length (flat position) /\
  Forall (is_count L) (flat (diverged_at_count6 st)).

(** The modulus by a square root, and a small grid to run the array versions
    on. *)
Definition sqrt_modulus (z : complex) : float :=
  sqrt (re z * re z + im z * im z)%float.

Definition small_grid : ndarray complex :=
  NdArray [2; 2]%nat [Cx 0 0; Cx 3 0; Cx 0 0; Cx 1 0].

(** A one-pixel colour image and a one-pixel greyscale image. *)
Definition rgb_pixel : Map :=
  {| image := []; pixels := NdArray [1; 1; 3]%nat [10; 200; 30] |}.

Definition grey_pixel : Map :=
  {| image := []; pixels := NdArray [1; 1]%nat [128] |}.

(** ** ch01dataanddesign/greengraph: [Greengraph.plot_green_between] *)

(** The calls to [matplotlib.pyplot], in the order they draw. *)
Inductive plot_call :=
| PltPlot (data : list Z)
| PltXticks (ticks : list Z)
| PltXlabel (label : string)
| PltYlabel (label : string)
| PltTitle (label : string).

(** A [Greengraph] together with the figure being drawn. *)
Record session := { graph : Greengraph; figure : list plot_call }.

(** A method of the graph, run within the session. *)
Definition io_on_graph {A} (m : io Greengraph A) : io session A :=
  fun st w =>
    let '(r, g, w') := m (graph st) w in
    (r, {| graph := g; figure := figure st |}, w').

Definition plt (call : plot_call) : io session unit :=
  fun st w => (Ret tt, {| graph := graph st; figure := (figure st ++ [call])%list |}, w).

(** [range(start, stop, step)] for a positive [step]. *)
Definition py_range (start stop step : Z) : list Z :=
  map (fun i => start + Z.of_nat i * step)
      (seq 0 (Z.to_nat ((stop - start + step - 1) / step))).

Definition is_geocode (ev : event) : bool :=
  match ev with EvGeocode _ _ => true | _ => false end.

(** [self.steps], when the attribute is set. *)
Definition stored_steps (self : Greengraph) : option Z := steps self.

Section GreengraphPlot.

Variable math_tan : float -> result float.
Variable math_asinh : float -> result float.
Variable np_linspace : float -> float -> Z -> result (list float).
Variable geocoder : trace -> string -> result (option (list location)).
Variable tile_server : trace -> http_request -> result bytes.
Variable imread : bytes -> result (ndarray Z).

Definition plot_green_between (steps : Z) : io session unit :=
  (do* st := io_get in
   let self := graph st in
   do* green_between_locations :=
     match green_at_each_location self with
     | None =>
         (* not hasattr(self, 'green_at_each_location') *)
         io_on_graph (green_between math_tan math_asinh np_linspace geocoder
                        tile_server imread steps)
     | Some stored =>
         match stored_steps self with
         | None =>
             io_lift (Raise (Exn (OtherError "AttributeError")
                               "'Greengraph' object has no attribute 'steps'"))
         | Some self_steps =>
             if negb (steps =? self_steps)
             then io_on_graph (green_between math_tan math_asinh np_linspace geocoder
                                 tile_server imread steps)
             else io_ret stored
         end
     end in
   do* _ := plt (PltPlot green_between_locations) in
   let xticks_steps := if steps >? 10 then 5 else 1 in
   do* _ := plt (PltXticks (py_range 0 steps xticks_steps)) in
   do* _ := plt (PltXlabel "Sequence step") in
   do* _ := plt (PltYlabel "$N_{green}$") in
   do* st := io_get in
   plt (PltTitle (start (graph st) ++ " -- " ++ end_ (graph st))))%io.

(** What [plot_green_between(steps)] adds to the figure for the data [data]. *)
Definition green_plot (self : Greengraph) (steps : Z) (data : list Z) : list plot_call :=
  [PltPlot data;
   PltXticks (py_range 0 steps (if steps >? 10 then 5 else 1));
   PltXlabel "Sequence step";
   PltYlabel "$N_{green}$";
   PltTitle (start self ++ " -- " ++ end_ self)].

End GreengraphPlot.

(** The graph after [self.steps = steps], and after a result was stored. *)
Definition with_steps (self : Greengraph) (n : Z) : Greengraph :=
  {| start := start self; end_ := end_ self; steps := Some n;
     green_at_each_location := green_at_each_location self |}.

Definition with_result (self : Greengraph) (n : Z) (counts : list Z) : Greengraph :=
  {| start := start self; end_ := end_ self; steps := Some n;
     green_at_each_location := Some counts |}.

(** Stand-ins to run a [Greengraph] on: a geocoder that places every query at
    the origin, and [np.linspace] for its two-point case, the end points. *)
Definition origin_geocoder (w : trace) (query : string)
  : result (option (list location)) :=
  Ret (Some [{| address := query; point := (0%float, 0%float) |}]).

Definition endpoints_linspace (a b : float) (num : Z) : result (list float) :=
  if num =? 2 then Ret [a; b]
  else Raise (Exn (OtherError "NotImplementedError") "two points only").

Definition london_oxford : Greengraph := Greengraph__init__ "London" "Oxford".

Definition london_oxford_measured : Greengraph :=
  {| start := "London"; end_ := "Oxford"; steps := Some 2;
     green_at_each_location := Some [5; 7] |}.

(** ** Arithmetic on [number] *)

Definition ZeroDivisionError : exn_class := OtherError "ZeroDivisionError".

(** [x == 0] on a number: true of the int 0 and of the floats 0.0 and -0.0. *)
Definition number_is_zero (x : number) : bool :=
  match x with
  | NInt n => n =? 0
  | NFloat f => (f =? 0)%float
  end.

Definition as_float (x : number) : result float :=
  match x with
  | NInt n => float_of_int n
  | NFloat f => Ret f
  end.

(** A binary operation that is exact on two ints and works on floats as soon
    as one operand is a float. *)
Definition number_binop (on_int : Z -> Z -> Z) (on_float : float -> float -> float)
  (x y : number) : result number :=
  match x, y with
  | NInt n, NInt m => Ret (NInt (on_int n m))
  | _, _ =>
      (let* a := as_float x in
       let* b := as_float y in
       Ret (NFloat (on_float a b)))%result
  end.

Definition number_add : number -> number -> result number := number_binop Z.add PrimFloat.add.
Definition number_sub : number -> number -> result number := number_binop Z.sub PrimFloat.sub.
Definition number_mul : number -> number -> result number := number_binop Z.mul PrimFloat.mul.

(** The spec float of a non-zero int, exact. *)
Definition spec_of_Z (n : Z) : spec_float :=
  match n with
  | Z0 => S754_zero false
  | Zpos p => S754_finite false p 0
  | Zneg p => S754_finite true p 0
  end.

(** [x / y], true division: of two ints, the quotient rounded once to the
    nearest float, an [OverflowError] when it is too large; of floats, the
    IEEE quotient; division by zero raises. *)
Definition number_truediv (x y : number) : result number :=
  match x, y with
  | NInt n, NInt m =>
      if m =? 0 then Raise (Exn ZeroDivisionError "division by zero")
      else match SFdiv prec emax (spec_of_Z n) (spec_of_Z m) with
           | S754_infinity _ =>
               Raise (Exn OverflowError "integer division result too large for a float")
           | q => Ret (NFloat (SF2Prim q))
           end
  | _, _ =>
      (let* a := as_float x in
       let* b := as_float y in
       if (b =? 0)%float then Raise (Exn ZeroDivisionError "float division by zero")
       else Ret (NFloat (a / b)%float))%result
  end.

(** ** ch01dataanddesign/115typehints: the other methods of [Calculator] *)

(** The truth value of an [Optional[bool]] argument. *)
Definition truthy (c : option bool) : bool :=
  match c with Some true => true | _ => false end.

Module CalculatorMethods.

Definition add (self : Calculator.t) (b : number) : result number :=
  number_add (Calculator.a self) b.

Definition subtract (self : Calculator.t) (b : number) : result number :=
  number_sub (Calculator.a self) b.

Definition multiply (self : Calculator.t) (b : number) : result number :=
  number_mul (Calculator.a self) b.

(** [None] is the [None] the method returns. *)
Definition divide (self : Calculator.t) (b : number) (check_zero : option bool)
  : result (option number) :=
  if truthy check_zero && number_is_zero b then Ret None
  else (let* q := number_truediv (Calculator.a self) b in Ret (Some q))%result.

Definition transform {Any} (self : Calculator.t) (tfm : number -> Any) : Any :=
  tfm (Calculator.a self).

End CalculatorMethods.

(** The [idx] of the three earlier versions of the class: it reads the name
    [a], which is not a local of the method, from the module's globals
    ([None]: the module defines no [a]). *)
Definition NameError : exn_class := OtherError "NameError".

Definition idx_reading_global {Sq T} `{!Sequence Sq T} (global_a : option number)
  (self : Calculator.t) (sqnc : Sq) : result T :=
  match global_a with
  | None => Raise (Exn NameError "name 'a' is not defined")
  | Some a =>
      if isinstance_float a then Raise (Exn ValueError "a should be int")
      else
        match subscript sqnc a with
        | Raise e =>
            if caught_by IndexError e then Raise (Exn ValueError "sequence too small")
            else Raise e
        | Ret rslt => Ret rslt
        end
  end.

(** ** ch02testsandsmells/05Advanced: [partial_derivative] *)

(** The interpreter state a function working on lists needs: the list objects
    by identity, and the calls made to the function under test, each with the
    contents of its argument at the time of the call. *)
Record pystate := {
  heap : gmap nat (list number);
  next_id : nat;
  calls : list (list number);
}.

(** The contents of the list object [l]. *)
Definition list_read (l : nat) : io pystate (list number) :=
  fun st w =>
    (match heap st !! l with
     | Some xs => Ret xs
     | None => Raise (Exn (OtherError "ReferenceError") "no such object")
     end, st, w).

Definition list_write (l : nat) (xs : list number) : io pystate unit :=
  fun st w =>
    (Ret tt, {| heap := <[l := xs]> (heap st); next_id := next_id st; calls := calls st |}, w).

(** [l[:]]: a new list object with the same contents. *)
Definition list_copy (l : nat) : io pystate nat :=
  (do* xs := list_read l in
   fun st w =>
     (Ret (next_id st),
      {| heap := <[next_id st := xs]> (heap st); next_id := S (next_id st);
         calls := calls st |}, w))%io.

(** [l[i] += delta]. *)
Definition list_iadd (l : nat) (i : Z) (delta : number) : io pystate unit :=
  (do* xs := list_read l in
   do* x := io_lift (list_getitem xs i) in
   do* x' := io_lift (number_add x delta) in
   match axis_index (length xs) i with
   | Some j => list_write l (<[j := x']> xs)
   | None => io_lift (Raise (Exn IndexError "list assignment index out of range"))
   end)%io.

(** [function(l)], recorded. *)
Definition call_with (function : list number -> result number) (l : nat)
  : io pystate number :=
  (do* xs := list_read l in
   do* _ := (fun st w =>
               (Ret tt, {| heap := heap st; next_id := next_id st;
                           calls := (calls st ++ [xs])%list |}, w)) in
   io_lift (function xs))%io.

Definition partial_derivative (function : list number -> result number) (at_ : nat)
  (direction : Z) (delta : number) : io pystate number :=
  (do* f_x := call_with function at_ in
   do* x_plus_delta := list_copy at_ in
   do* _ := list_iadd x_plus_delta direction delta in
   do* f_x_plus_delta := call_with function x_plus_delta in
   do* difference := io_lift (number_sub f_x_plus_delta f_x) in
   io_lift (number_truediv difference delta))%io.

(** The list [xs] with [delta] added to its entry at [direction]. *)
Definition shifted (xs : list number) (direction : Z) (delta : number)
  : result (list number) :=
  match axis_index (length xs) direction with
  | None => Raise (Exn IndexError "list index out of range")
  | Some i =>
      match xs !! i with
      | Some x => (let* x' := number_add x delta in Ret (<[i := x']> xs))%result
      | None => Raise (Exn IndexError "list index out of range")
      end
  end.

(** The finite difference, from the two values of the function. *)
Definition difference_quotient (f_x f_x_plus_delta delta : number) : result number :=
  (let* difference := number_sub f_x_plus_delta f_x in
   number_truediv difference delta)%result.

(** A function to differentiate: the sum of the entries, added left to
    right. *)
Definition sum_left_to_right (xs : list number) : result number :=
  fold_left (fun acc x => (let* s := acc in number_add s x)%result) xs (Ret (NInt 0)).

(** ** ch01dataanddesign/120dataclass: [append_to_list] *)

(** [lst.append(el)]. *)
Definition list_append (l : nat) (el : number) : io pystate unit :=
  (do* xs := list_read l in list_write l (xs ++ [el]))%io.

(** [append_to_list(el, lst=[])]: [default] is the list object made when the
    [def] statement ran; a call without [lst] works on that one object. *)
Definition append_to_list (default : nat) (el : number) (lst : option nat)
  : io pystate nat :=
  (let lst := match lst with Some l => l | None => default end in
   do* _ := list_append lst el in
   io_ret lst)%io.

(** ** ch02testsandsmells/05Advanced: [smart_square] with its last branch
    removed *)

Module WithoutDeadCode.

Section SmartSquare.

Variable float_of_str : string -> option float.
Variable float_of_int : Z -> result float.

Definition smart_square (a : pyval) : result pyval :=
  if isinstance a [TFloat; TInt] then py_mul float_of_str float_of_int a a
  else if isinstance a [TStr; TBool] then
    match (let* x := py_float float_of_str float_of_int a in
           let* y := py_float float_of_str float_of_int a in
           Ret (PFloat (x * y)%float))%result with
    | Ret result => Ret result
    | Raise e =>
        (* except ValueError: *)
        if caught_by ValueError e then
          Raise (Exn ValueError
                   ("a should be of type float/int or convertible to float; got "
                      ++ class_repr (type_of a)))
        else Raise e
    end
  else Ret PNone.

End SmartSquare.

End WithoutDeadCode.

(** * Properties *)

(** ** Exceptions and strings *)

Lemma caught_by_type cls e : caught_by cls e = true -> exn_type e = cls.
Proof.
  unfold caught_by. destruct e as [c m]; simpl.
  destruct c, cls; simpl; try discriminate; try reflexivity.
  intros H. apply String.eqb_eq in H. now subst.
Qed.

Lemma caught_by_refl e : caught_by (exn_type e) e = true.
Proof.
  unfold caught_by. destruct (exn_type e); simpl; try reflexivity.
  apply String.eqb_refl.
Qed.

Lemma prefix_space c s : String.prefix " " (String c s) = true <-> c = " "%char.
Proof.
  cbn [String.prefix]. destruct (Ascii.ascii_dec " "%char c) as [E|E].
  - split; [intros _; now symmetry | intros _; now destruct s].
  - split; [discriminate | intros ->; now destruct E].
Qed.

Lemma str_in_space s : str_in " " s = true <-> has_space s.
Proof.
  unfold has_space. induction s as [|c s IH].
  - simpl. split; [discriminate | tauto].
  - change (str_in " " (String c s))
      with (String.prefix " " (String c s) || str_in " " s).
    rewrite orb_true_iff, prefix_space, IH. simpl. intuition congruence.
Qed.

Lemma str_in_no_space s : str_in " " s = false <-> ~ has_space s.
Proof. rewrite <- str_in_space. destruct (str_in " " s); intuition congruence. Qed.

(** ** Float conversions, on values *)

Example py_int_truncates :
  py_int 0x1.005999999999ap+9%float = Ret 512 /\ py_int (-2.5)%float = Ret (-2)
  /\ py_int 0.75%float = Ret 0 /\ returns (py_int infinity) = false
  /\ returns (py_int nan) = false.
Proof. vm_compute. repeat split. Qed.

Example float_of_Z_exact :
  float_of_Z 49 = 49%float /\ float_of_Z (-3) = (-3)%float /\ float_of_Z 0 = 0%float
  /\ float_of_Z (2 ^ 53 + 1) = 0x1p+53%float.
Proof. vm_compute. repeat split. Qed.

Example float_pow2_values :
  float_pow2 10 = Ret 1024%float /\ float_pow2 (-1) = Ret 0.5%float
  /\ float_pow2 (-1075) = Ret 0%float /\ returns (float_pow2 1024) = false.
Proof. vm_compute. repeat split. Qed.

(** ** [Person]: the validators *)

(** C5: the field validator on [name] returns its argument unchanged when it
    contains a space, and raises [ValueError] with the notebook's message when
    it contains none. *)
Theorem field_validator_name_spec (v : string) :
  (has_space v -> PersonFieldValidated.validate_name v = Ret v) /\
  (~ has_space v ->
   PersonFieldValidated.validate_name v
   = Raise (Exn ValueError "the name must have first and last names separated by <space>")).
Proof.
  unfold PersonFieldValidated.validate_name. split; intros H.
  - apply str_in_space in H. now rewrite H.
  - apply str_in_no_space in H. now rewrite H.
Qed.

Example field_validator_john : PersonFieldValidated.validate_name "John Doe" = Ret "John Doe".
Proof. reflexivity. Qed.

Example field_validator_saransh :
  returns (PersonFieldValidated.validate_name "Saransh") = false.
Proof. reflexivity. Qed.

Import PersonModelValidated.

(** Case analysis on every integer comparison in sight, closed by linear
    arithmetic (with [mod] turned into its defining equations). *)
Ltac case_compare :=
  repeat (match goal with
          | H : context [?a =? ?b] |- _ => destruct (Z.eqb_spec a b); [try subst a|]
          | |- context [?a =? ?b] => destruct (Z.eqb_spec a b); [try subst a|]
          | H : context [?a <? ?b] |- _ => destruct (Z.ltb_spec a b)
          | |- context [?a <? ?b] => destruct (Z.ltb_spec a b)
          | H : context [?a <=? ?b] |- _ => destruct (Z.leb_spec a b)
          | |- context [?a <=? ?b] => destruct (Z.leb_spec a b)
          end; simpl in *; try discriminate; try reflexivity; try lia);
  try (exfalso; Z.div_mod_to_equations; lia).

Ltac on_dict := unfold validate_name, test, item, or_else, and_then; simpl.

Lemma validate_name_returns_input v v' : validate_name v = Ret v' -> v' = v.
Proof.
  destruct v as [p|d]; [discriminate|]. on_dict.
  repeat match goal with
         | |- context [if ?c then _ else _] => destruct c; simpl
         end; congruence.
Qed.

Lemma accepts_needs_space d : accepts (Dict d) = true -> has_space (name d).
Proof.
  unfold accepts. on_dict. intros H. apply str_in_space.
  destruct (str_in " " (name d)); [reflexivity | discriminate].
Qed.

(** C1: run by pydantic, the model validator accepts no [Person] at all: its
    first subscript [v["name"]] is applied to the instance and raises
    [TypeError].  So it does on a person with a valid birth day and a name
    with a space. *)
Theorem model_validator_accepts_nothing :
  birth_day_valid 7 1 2002 = true /\
  has_space "Saransh Chopra" /\
  model_validate
    {| birth_day := 7; birth_month := 1; birth_year := 2002; name := "Saransh Chopra" |}
  = Raise (Exn TypeError "'Person' object is not subscriptable") /\
  (forall data : Person,
     model_validate data = Raise (Exn TypeError "'Person' object is not subscriptable")).
Proof.
  split; [reflexivity|]. split; [apply str_in_space; reflexivity|].
  split; [reflexivity|]. intros data. reflexivity.
Qed.

(** The notebook's own [data], passed as a dict in a call by hand, has a
    valid birth day and a one-word name: the validator raises on it. *)
Example validate_name_rejects_one_word_name :
  birth_day_valid 7 1 2002 = true /\
  validate_name
    (Dict {| birth_day := 7; birth_month := 1; birth_year := 2002; name := "Saransh" |})
  = Raise (Exn ValueError "the name must have first and last names separated by <space>").
Proof. split; reflexivity. Qed.

(** What the body of the validator does when it is called by hand on a dict
    of the four fields: a name without a space is rejected whatever the date;
    with a space in the name, a month outside 1..12 is rejected, a 31-day
    month accepts exactly the days 1..31, a 30-day month accepts the days
    1..30 and rejects the days below 1 and above 31, February of a leap year
    accepts exactly the days 1..29, and February never accepts a day outside
    1..29.  An accepted dict is returned unchanged. *)
Lemma validate_name_on_dict (d : Person) :
  (~ has_space (name d) -> accepts (Dict d) = false) /\
  (has_space (name d) ->
   (between 1 12 (birth_month d) = false -> accepts (Dict d) = false) /\
   (int_in (birth_month d) [1; 3; 5; 7; 8; 10; 12] = true ->
    accepts (Dict d) = between 1 31 (birth_day d)) /\
   (int_in (birth_month d) [4; 6; 9; 11] = true ->
    (between 1 30 (birth_day d) = true -> accepts (Dict d) = true) /\
    (between 1 31 (birth_day d) = false -> accepts (Dict d) = false)) /\
   (birth_month d = 2 ->
    (is_leap_year (birth_year d) = true -> accepts (Dict d) = between 1 29 (birth_day d)) /\
    (between 1 29 (birth_day d) = false -> accepts (Dict d) = false))) /\
  (forall v', validate_name (Dict d) = Ret v' -> v' = Dict d).
Proof.
  split; [|split; [|apply validate_name_returns_input]].
  - intros H. apply str_in_no_space in H. unfold accepts. on_dict. now rewrite H.
  - intros H. apply str_in_space in H.
    unfold accepts, between, is_leap_year, int_in. on_dict. rewrite H. simpl.
    destruct d as [d m y n]; simpl in *. clear H.
    rewrite !Z.gtb_ltb.
    repeat split; intros; case_compare.
Qed.

(** Where the body departs from its own messages (day 31 of a 30-day month,
    February outside the years divisible by 4, the century years). *)
Example april_31_is_accepted :
  accepts
    (Dict {| birth_day := 31; birth_month := 4; birth_year := 2002; name := "John Doe" |})
  = true.
Proof. reflexivity. Qed.

Example february_2001_is_rejected :
  validate_name
    (Dict {| birth_day := 10; birth_month := 2; birth_year := 2001; name := "John Doe" |})
  = Raise (Exn ValueError "birth day should be between 1 and 28").
Proof. reflexivity. Qed.

Example february_29_1900_is_accepted :
  accepts
    (Dict {| birth_day := 29; birth_month := 2; birth_year := 1900; name := "John Doe" |})
  = true.
Proof. reflexivity. Qed.

(** ** [Calculator.idx] *)

Lemma list_getitem_raises_IndexError {T} (l : list T) i e :
  list_getitem l i = Raise e -> exn_type e = IndexError.
Proof.
  unfold list_getitem.
  destruct (_ || _); [intros [= <-]; reflexivity|].
  destruct (l !! _); [discriminate | intros [= <-]; reflexivity].
Qed.

Lemma list_getitem_in_range {T} (l : list T) i :
  - Z.of_nat (length l) <= i < Z.of_nat (length l) ->
  exists x, list_getitem l i = Ret x.
Proof.
  intros Hi. unfold list_getitem.
  set (j := if i <? 0 then i + Z.of_nat (length l) else i).
  assert (Hj : 0 <= j < Z.of_nat (length l))
    by (subst j; destruct (Z.ltb_spec i 0); lia).
  destruct (Z.ltb_spec j 0); [lia|].
  destruct (Z.leb_spec (Z.of_nat (length l)) j); [lia|]. simpl.
  destruct (lookup_lt_is_Some_2 l (Z.to_nat j)) as [x Hx]; [lia|].
  rewrite Hx. eauto.
Qed.

(** C2: for a [Calculator] and a sequence, [idx] raises ValueError
    'a should be int' when [a] is a float; when [a] is an int it raises
    ValueError 'sequence too small' whenever [sqnc[a]] raises [IndexError] and
    returns [sqnc[a]] whenever that returns; and no [IndexError] leaves
    [idx]. *)
Theorem idx_spec {Sq T} `{!Sequence Sq T} (self : Calculator.t) (sqnc : Sq) :
  match Calculator.a self with
  | NFloat _ => Calculator.idx self sqnc = Raise (Exn ValueError "a should be int")
  | NInt i =>
      (forall e, getitem sqnc i = Raise e -> exn_type e = IndexError ->
                 Calculator.idx self sqnc = Raise (Exn ValueError "sequence too small")) /\
      (forall x, getitem sqnc i = Ret x -> Calculator.idx self sqnc = Ret x)
  end /\
  (forall e, Calculator.idx self sqnc = Raise e -> exn_type e <> IndexError).
Proof.
  unfold Calculator.idx. destruct (Calculator.a self) as [i|x]; simpl.
  - split; [split|].
    + intros e He Ht. rewrite He. rewrite <- Ht, caught_by_refl. reflexivity.
    + intros x Hx. now rewrite Hx.
    + intros e. destruct (getitem sqnc i) as [x|e'] eqn:Hg; [discriminate|].
      destruct (caught_by IndexError e') eqn:Hc.
      * intros [= <-]. discriminate.
      * intros [= <-] Ht. rewrite <- Ht, caught_by_refl in Hc. discriminate.
  - split; [reflexivity|]. intros e [= <-]. discriminate.
Qed.

(** On a list, [idx] returns the element exactly for [-len <= a < len], and
    raises 'sequence too small' otherwise. *)
Lemma idx_list {T} (l : list T) (i : Z) :
  (- Z.of_nat (length l) <= i < Z.of_nat (length l) ->
   exists x, list_getitem l i = Ret x /\ Calculator.idx {| Calculator.a := NInt i |} l = Ret x) /\
  (~ - Z.of_nat (length l) <= i < Z.of_nat (length l) ->
   Calculator.idx {| Calculator.a := NInt i |} l = Raise (Exn ValueError "sequence too small")).
Proof.
  split; intros Hi.
  - destruct (list_getitem_in_range l i Hi) as [x Hx]. exists x. split; [exact Hx|].
    unfold Calculator.idx; simpl. unfold getitem, list_Sequence. now rewrite Hx.
  - unfold Calculator.idx; simpl. unfold getitem, list_Sequence, list_getitem.
    destruct (Z.ltb_spec i 0).
    + destruct (Z.ltb_spec (i + Z.of_nat (length l)) 0); [reflexivity | lia].
    + destruct (Z.ltb_spec i 0); [lia|].
      destruct (Z.leb_spec (Z.of_nat (length l)) i); [reflexivity | lia].
Qed.

Example idx_last : Calculator.idx {| Calculator.a := NInt (-1) |} [10; 20; 30] = Ret 30.
Proof. reflexivity. Qed.

Example idx_too_small :
  Calculator.idx {| Calculator.a := NInt 3 |} [10; 20; 30]
  = Raise (Exn ValueError "sequence too small").
Proof. reflexivity. Qed.

Example idx_float :
  Calculator.idx {| Calculator.a := NFloat 1%float |} [10; 20; 30]
  = Raise (Exn ValueError "a should be int").
Proof. reflexivity. Qed.

(** ** [smart_square] *)

Section SmartSquareFacts.

Variable float_of_str : string -> option float.
Variable float_of_int : Z -> result float.

(** What [smart_square] does on each annotated type. *)
Lemma smart_square_int n :
  smart_square float_of_str float_of_int (PInt n) = Ret (PInt (n * n)).
Proof. reflexivity. Qed.

Lemma smart_square_float x :
  smart_square float_of_str float_of_int (PFloat x) = Ret (PFloat (x * x)%float).
Proof. reflexivity. Qed.

Lemma smart_square_bool b :
  smart_square float_of_str float_of_int (PBool b) = Ret (PInt (Z_of_bool b)).
Proof. now destruct b. Qed.

Lemma smart_square_str s :
  smart_square float_of_str float_of_int (PStr s)
  = match float_of_str s with
    | Some x => Ret (PFloat (x * x)%float)
    | None => Raise (Exn ValueError
                       "a should be of type float/int or convertible to float; got <class 'str'>")
    end.
Proof. unfold smart_square; simpl. now destruct (float_of_str s). Qed.

(** C10: on an argument of an annotated type ([int], [float], [bool],
    [str]), [smart_square] never raises [NotImplementedError]; it returns a
    number or raises [ValueError], and it raises [ValueError] exactly when
    the argument is a string that [float] does not convert. *)
Theorem smart_square_annotated (a : pyval) :
  isinstance a [TFloat; TInt; TBool; TStr] = true ->
  (forall e, smart_square float_of_str float_of_int a = Raise e ->
             exn_type e <> NotImplementedError) /\
  ((exists v, smart_square float_of_str float_of_int a = Ret v /\ is_number v = true) \/
   (exists msg, smart_square float_of_str float_of_int a = Raise (Exn ValueError msg))) /\
  ((exists msg, smart_square float_of_str float_of_int a = Raise (Exn ValueError msg)) <->
   (exists s, a = PStr s /\ float_of_str s = None)).
Proof.
  intros Ha. destruct a as [n|x|b|s| |c]; try discriminate Ha.
  - rewrite smart_square_int. repeat split; try discriminate.
    + left; eauto.
    + intros [e He]; discriminate.
    + intros (s & Hs & _); discriminate.
  - rewrite smart_square_float. repeat split; try discriminate.
    + left; eauto.
    + intros [e He]; discriminate.
    + intros (s & Hs & _); discriminate.
  - rewrite smart_square_bool. repeat split; try discriminate.
    + left; eauto.
    + intros [e He]; discriminate.
    + intros (s & Hs & _); discriminate.
  - rewrite smart_square_str. destruct (float_of_str s) as [x|] eqn:Hs.
    + repeat split; try discriminate.
      * left; eauto.
      * intros [e He]; discriminate.
      * intros (s' & [= <-] & Hn); congruence.
    + repeat split.
      * intros e [= <-]; discriminate.
      * right; eauto.
      * intros _. eauto.
      * intros _. eauto.
Qed.

(** The last branch is taken by an argument outside the annotation. *)
Example smart_square_None :
  smart_square float_of_str float_of_int PNone = Raise (Exn NotImplementedError EmptyString).
Proof. reflexivity. Qed.

End SmartSquareFacts.

Lemma smart_square_annotated_witness :
  isinstance (PStr "false") [TFloat; TInt; TBool; TStr] = true /\
  exists msg,
    smart_square float_of_test_literal (fun n => Ret (float_of_Z n)) (PStr "false")
    = Raise (Exn ValueError msg).
Proof.
  split; [reflexivity|].
  apply (smart_square_annotated float_of_test_literal (fun n => Ret (float_of_Z n))
           (PStr "false") eq_refl).
  exists "false". split; reflexivity.
Defined.

(** ** The Mandelbrot functions *)

Section Mandel1Facts.

Variable complex_abs : complex -> result float.
Variable complex_pow : complex -> Z -> result complex.

(** The loop entered with [limit >= 0] leaves with a value in [0 .. limit]. *)
Lemma mandel1_while_range position value limit :
  0 <= limit ->
  match mandel1_while complex_abs complex_pow position value limit with
  | Ret r => 0 <= r <= limit
  | Raise e => raised_by_arithmetic complex_abs complex_pow e
  end.
Proof.
  funelim (mandel1_while complex_abs complex_pow position value limit);
    intros Hlimit.
  - eexists. left. eassumption.
  - lia.
  - eexists. right. eassumption.
  - lia.
  - match goal with
    | Hlt : (_ <? 0) = false |- _ => pose proof (proj1 (Z.ltb_ge _ _) Hlt)
    end.
    match goal with
    | IH : 0 <= _ -> _ |- _ => specialize (IH ltac:(lia)); revert IH
    end.
    destruct (mandel1_while _ _ _ _ _); [lia | tauto].
Qed.

(** C9: [mandel1] is a total function of its arguments (its loop is defined
    by well-founded recursion on [limit], which every iteration decreases
    while it is non-negative), and for [limit >= 0] it returns a value between
    0 and [limit]; the only other outcome is an exception of the complex
    arithmetic itself. *)
Theorem mandel1_terminates_in_range (position : complex) (limit : Z) :
  0 <= limit ->
  match mandel1 complex_abs complex_pow position limit with
  | Ret r => 0 <= r <= limit
  | Raise e => raised_by_arithmetic complex_abs complex_pow e
  end.
Proof. apply mandel1_while_range. Qed.

(** With arithmetic that never raises (NumPy scalars), [mandel1] returns. *)
Corollary mandel1_returns position limit :
  (forall v, returns (complex_abs v) = true) ->
  (forall v, returns (complex_pow v 2) = true) ->
  0 <= limit ->
  exists r, mandel1 complex_abs complex_pow position limit = Ret r /\ 0 <= r <= limit.
Proof.
  intros Habs Hpow Hlimit.
  pose proof (mandel1_while_range position position limit Hlimit) as H.
  unfold mandel1.
  destruct (mandel1_while complex_abs complex_pow position position limit) as [r|e]; [eauto|].
  destruct H as [v [Hv|Hv]].
  - specialize (Habs v). rewrite Hv in Habs. discriminate.
  - specialize (Hpow v). rewrite Hv in Hpow. discriminate.
Qed.

End Mandel1Facts.

Lemma mandel1_terminates_in_range_witness :
  0 <= 50 /\
  match mandel1 sqrt_abs mul_pow (Cx 1 0) 50 with
  | Ret r => 0 <= r <= 50
  | Raise e => raised_by_arithmetic sqrt_abs mul_pow e
  end.
Proof.
  split; [lia|].
  apply (mandel1_terminates_in_range sqrt_abs mul_pow (Cx 1 0) 50). lia.
Defined.

Example mandel1_one : mandel1 sqrt_abs mul_pow (Cx 1 0) 50 = Ret 49.
Proof. vm_compute. reflexivity. Qed.

Example mandel1_zero : mandel1 sqrt_abs mul_pow (Cx 0 0) 50 = Ret 0.
Proof. vm_compute. reflexivity. Qed.

Example mandel1_outside : mandel1 sqrt_abs mul_pow (Cx 3 0) 50 = Ret 50.
Proof. vm_compute. reflexivity. Qed.

(** The two unfoldings of [mandel7]'s loop. *)
Lemma mandel7_while_done st limit :
  limit <= 0 -> mandel7_while st limit = Ret (diverged_at_count st).
Proof.
  intros Hlimit. funelim (mandel7_while st limit); try reflexivity;
    match goal with
    | Hgt : (_ >? 0) = true |- _ => pose proof (proj1 (Z.gtb_lt _ _) Hgt); lia
    end.
Qed.

Lemma mandel7_while_step st limit :
  0 < limit ->
  mandel7_while st limit
  = match mandel7_body st (limit - 1) with
    | Raise e => Raise e
    | Ret st' => mandel7_while st' (limit - 1)
    end.
Proof.
  intros Hlimit. funelim (mandel7_while st limit).
  - match goal with
    | Hgt : (_ >? 0) = false |- _ =>
        pose proof (proj2 (Z.gtb_lt limit 0) ltac:(lia)); congruence
    end.
  - now match goal with Hb : mandel7_body _ _ = _ |- _ => rewrite Hb end.
  - now match goal with Hb : mandel7_body _ _ = _ |- _ => rewrite Hb end.
Qed.

(** [mandel7] reads the module-level [values] for the shape of its index
    grid.  With a positive [limit] and a [position] of another shape, the
    first boolean-mask selection fails. *)
Lemma mandel7_shape_mismatch (g : globals) (position : ndarray complex) (limit : Z) h w :
  shape (values g) = [h; w] ->
  length (shape position) = 2%nat ->
  shape position <> [h; w] ->
  0 < limit ->
  mandel7 g position limit
  = Raise (Exn IndexError "boolean index did not match indexed array").
Proof.
  intros Hg _ Hp Hlimit. unfold mandel7. rewrite Hg. simpl.
  rewrite mandel7_while_step by exact Hlimit.
  unfold mandel7_body. simpl. unfold nd_map2. simpl.
  unfold shape_eqb. rewrite bool_decide_eq_true_2 by reflexivity. simpl.
  unfold index_select. simpl. unfold shape_eqb.
  rewrite bool_decide_eq_false_2 by congruence. reflexivity.
Qed.

(** Without an iteration the global is read, and its contents ignored. *)
Lemma mandel7_no_iteration (g : globals) (position : ndarray complex) (limit : Z) h w :
  shape (values g) = [h; w] ->
  limit <= 0 ->
  mandel7 g position limit = Ret (np_zeros (shape position)).
Proof.
  intros Hg Hlimit. unfold mandel7. rewrite Hg. simpl.
  now rewrite mandel7_while_done.
Qed.

(** C4, at a concrete call: the same arguments ([position] a single point,
    [limit] 1) give a result under globals where [values] has the shape of
    [position], and an [IndexError] under the notebook's 300 x 300 [values]. *)
Theorem mandel7_depends_on_global_values :
  let position := NdArray [1; 1]%nat [Cx 0 0] in
  mandel7 {| values := position |} position 1 = Ret (NdArray [1; 1]%nat [0%float]) /\
  mandel7 {| values := NdArray [300; 300]%nat (repeat (Cx 0 0) (300 * 300)) |} position 1
  = Raise (Exn IndexError "boolean index did not match indexed array").
Proof.
  split.
  - vm_compute. reflexivity.
  - apply (mandel7_shape_mismatch _ _ _ 300%nat 300%nat);
      [reflexivity | reflexivity | discriminate | lia].
Qed.

Example mandel7_grid :
  let position := NdArray [2; 2]%nat [Cx 0 0; Cx 3 0; Cx 0 0; Cx 1 0] in
  mandel7 {| values := position |} position 3
  = Ret (NdArray [2; 2]%nat [0; 2; 0; 1]%float).
Proof. vm_compute. reflexivity. Qed.

(** ** [Map] and [Greengraph]: what leaves the process *)

(** The reading of [uncaught] call by call. *)
Lemma uncaught_last {A} evs (r : result A) pre ev post e :
  uncaught evs r -> evs = (pre ++ ev :: post)%list -> outcome_exn ev = Some e ->
  post = [] /\ r = Raise e.
Proof.
  intros Hu Heq He. destruct Hu as [evs r Hall | evs ev' e' Hall He'].
  - subst evs. apply Forall_app in Hall as [_ Hall].
    apply Forall_cons_1 in Hall as [Hev _]. congruence.
  - destruct post as [|p post] using rev_ind.
    + apply app_inj_tail in Heq as [_ ->]. split; [reflexivity | congruence].
    + clear IHpost. rewrite app_comm_cons, app_assoc in Heq.
      apply app_inj_tail in Heq as [-> _].
      apply Forall_app in Hall as [_ Hall].
      apply Forall_cons_1 in Hall as [Hev _]. congruence.
Qed.

Lemma uncaught_Ret {A} evs (a : A) : uncaught evs (Ret a) -> all_returned evs.
Proof. now inversion 1. Qed.

Lemma uncaught_Raise {A B} evs e : uncaught evs (@Raise A e) -> uncaught evs (@Raise B e).
Proof.
  inversion 1; subst.
  - now apply uncaught_quiet.
  - now apply uncaught_raised.
Qed.

Lemma uncaught_app {A} evs1 evs2 (r : result A) :
  all_returned evs1 -> uncaught evs2 r -> uncaught (evs1 ++ evs2)%list r.
Proof.
  intros H1 [evs r' Hall | evs ev e Hall He].
  - apply uncaught_quiet. now apply Forall_app.
  - rewrite app_assoc. apply uncaught_raised; [now apply Forall_app | exact He].
Qed.

Section Propagation.

Context {St : Type}.

Lemma propagates_ret {A} (a : A) : propagates (St := St) (io_ret a).
Proof. intros st w. exists []. simpl. rewrite app_nil_r. split; [reflexivity | apply uncaught_quiet; constructor]. Qed.

Lemma propagates_lift {A} (r : result A) : propagates (St := St) (io_lift r).
Proof. intros st w. exists []. simpl. rewrite app_nil_r. split; [reflexivity | apply uncaught_quiet; constructor]. Qed.

Lemma propagates_get : propagates (St := St) io_get.
Proof. intros st w. exists []. simpl. rewrite app_nil_r. split; [reflexivity | apply uncaught_quiet; constructor]. Qed.

Lemma propagates_modify f : propagates (St := St) (io_modify f).
Proof. intros st w. exists []. simpl. rewrite app_nil_r. split; [reflexivity | apply uncaught_quiet; constructor]. Qed.

Lemma propagates_bind {A B} (m : io St A) (k : A -> io St B) :
  propagates m -> (forall a, propagates (k a)) -> propagates (io_bind m k).
Proof.
  intros Hm Hk st w. unfold io_bind.
  destruct (Hm st w) as (evs1 & Hw1 & Hu1).
  destruct (m st w) as [[[a|e] st'] w']; simpl in *; subst w'.
  - destruct (Hk a st' (w ++ evs1)%list) as (evs2 & Hw2 & Hu2).
    exists (evs1 ++ evs2)%list. rewrite app_assoc. split; [exact Hw2|].
    apply uncaught_app; [now apply uncaught_Ret in Hu1 | exact Hu2].
  - exists evs1. split; [reflexivity | exact (uncaught_Raise (B := B) _ _ Hu1)].
Qed.

Lemma propagates_fresh {A} (m : io unit A) : propagates m -> propagates (St := St) (io_fresh m).
Proof.
  intros Hm st w. unfold io_fresh. destruct (Hm tt w) as (evs & Hw & Hu).
  destruct (m tt w) as [[r u] w']. now exists evs.
Qed.

Lemma propagates_for {A B} (f : A -> io St B) (xs : list A) :
  (forall x, propagates (f x)) -> propagates (io_for f xs).
Proof.
  intros Hf. induction xs as [|x xs IH]; simpl.
  - apply propagates_ret.
  - apply propagates_bind; [apply Hf|]. intros y.
    apply propagates_bind; [exact IH|]. intros ys. apply propagates_ret.
Qed.

End Propagation.

Section GreengraphFacts.

Variable math_tan : float -> result float.
Variable math_asinh : float -> result float.
Variable np_linspace : float -> float -> Z -> result (list float).
Variable geocoder : trace -> string -> result (option (list location)).
Variable tile_server : trace -> http_request -> result bytes.
Variable imread : bytes -> result (ndarray Z).

Lemma propagates_call {St A} (ev : result A -> event) (oracle : trace -> result A) :
  (forall r, outcome_exn (ev r) = match r with Ret _ => None | Raise e => Some e end) ->
  propagates (St := St) (fun st w => (oracle w, st, (w ++ [ev (oracle w)])%list)).
Proof.
  intros Hev st w. exists [ev (oracle w)]. split; [reflexivity|]. simpl.
  specialize (Hev (oracle w)). destruct (oracle w) as [a|e].
  - apply uncaught_quiet. now repeat constructor.
  - apply (uncaught_raised []); [constructor | exact Hev].
Qed.

Lemma propagates_geocode {St} query : propagates (St := St) (geocode geocoder query).
Proof. apply (propagates_call (EvGeocode query) (fun w => geocoder w query)). now intros []. Qed.

Lemma propagates_requests_get {St} base ps :
  propagates (St := St) (requests_get tile_server base ps).
Proof.
  apply (propagates_call (EvHttpGet {| url := base; params := ps |})
           (fun w => tile_server w {| url := base; params := ps |})).
  now intros [].
Qed.

Lemma propagates_imread {St} content : propagates (St := St) (iio_imread imread content).
Proof. apply (propagates_call (EvImread content) (fun _ => imread content)). now intros []. Qed.

Lemma propagates_Map__init__ latitude longitude satellite zoom :
  propagates (Map__init__ math_tan math_asinh tile_server imread
                latitude longitude satellite zoom).
Proof.
  unfold Map__init__.
  apply propagates_bind; [apply propagates_lift|]. intros xy.
  apply propagates_bind; [apply propagates_requests_get|]. intros img.
  apply propagates_bind; [apply propagates_imread|]. intros px.
  apply propagates_ret.
Qed.

Lemma propagates_geolocate place : propagates (geolocate geocoder place).
Proof.
  unfold geolocate.
  apply propagates_bind; [apply propagates_geocode|]. intros found.
  apply propagates_bind; [apply propagates_lift|]. intros first.
  apply propagates_ret.
Qed.

Lemma propagates_green_between steps :
  propagates (green_between math_tan math_asinh np_linspace geocoder tile_server imread steps).
Proof.
  unfold green_between.
  apply propagates_bind; [apply propagates_modify|]. intros _.
  apply propagates_bind; [apply propagates_get|]. intros self.
  apply propagates_bind; [apply propagates_geolocate|]. intros s.
  apply propagates_bind; [apply propagates_geolocate|]. intros e.
  apply propagates_bind; [apply propagates_lift|]. intros sequence.
  apply propagates_bind.
  { apply propagates_for. intros loc. apply propagates_fresh, propagates_Map__init__. }
  intros maps.
  apply propagates_bind.
  { apply propagates_for. intros current_map. apply propagates_lift. }
  intros counts.
  apply propagates_bind; [apply propagates_modify|]. intros _.
  apply propagates_ret.
Qed.

(** C7: [geolocate], [green_between] and the construction of a [Map] catch
    nothing.  Whatever the geocoding service, the tile server and the image
    decoder do: as soon as one of their calls raises [e], no further call is
    made (no retry) and the method raises that same [e]. *)
Theorem greengraph_exceptions_propagate :
  (forall place, propagates (geolocate geocoder place)) /\
  (forall steps,
     propagates (green_between math_tan math_asinh np_linspace geocoder tile_server imread steps)) /\
  (forall latitude longitude satellite zoom,
     propagates (Map__init__ math_tan math_asinh tile_server imread
                   latitude longitude satellite zoom)).
Proof.
  split; [|split].
  - apply propagates_geolocate.
  - apply propagates_green_between.
  - intros. apply propagates_Map__init__.
Qed.

(** [propagates], call by call: any call of the run that raised is the run's
    last call, and its exception is the run's. *)
Lemma propagates_each_call {St A} (m : io St A) st w :
  propagates m ->
  exists evs, snd (m st w) = (w ++ evs)%list /\
    forall pre ev post e,
      evs = (pre ++ ev :: post)%list -> outcome_exn ev = Some e ->
      post = [] /\ fst (fst (m st w)) = Raise e.
Proof.
  intros Hm. destruct (Hm st w) as (evs & Hw & Hu). exists evs. split; [exact Hw|].
  intros pre ev post e Heq He. exact (uncaught_last _ _ _ _ _ _ Hu Heq He).
Qed.

(** The property tells a handler apart: a [geolocate] wrapped in a
    [try ... except] that answers with a default does not have it. *)
Lemma handled_call_does_not_propagate :
  ~ propagates (St := unit)
      (io_try (geocode failing_geocoder "London") (fun _ => io_ret None)).
Proof.
  intros H. destruct (H tt []) as (evs & Hw & Hu). simpl in Hw, Hu. subst evs.
  apply uncaught_Ret in Hu. apply Forall_cons_1 in Hu as [Hev _]. discriminate.
Qed.

(** The three sources of an exception, one by one. *)
Lemma geolocate_geocoder_raises place self w e :
  geocoder w place = Raise e ->
  geolocate geocoder place self w = (Raise e, self, (w ++ [EvGeocode place (Raise e)])%list).
Proof. intros H. unfold geolocate, io_bind, geocode. now rewrite H. Qed.

Lemma Map__init__fetch_raises latitude longitude satellite zoom w e :
  returns (deg2num math_tan math_asinh latitude longitude zoom) = true ->
  (forall req, tile_server w req = Raise e) ->
  fst (fst (Map__init__ math_tan math_asinh tile_server imread
              latitude longitude satellite zoom tt w)) = Raise e.
Proof.
  intros Hd Hs. unfold Map__init__, io_bind, io_lift, requests_get.
  destruct (deg2num _ _ _ _ _) as [xy|]; [|discriminate]. now rewrite Hs.
Qed.

Lemma Map__init__decode_raises latitude longitude satellite zoom w content e :
  returns (deg2num math_tan math_asinh latitude longitude zoom) = true ->
  (forall req, tile_server w req = Ret content) ->
  imread content = Raise e ->
  fst (fst (Map__init__ math_tan math_asinh tile_server imread
              latitude longitude satellite zoom tt w)) = Raise e.
Proof.
  intros Hd Hs Hi. unfold Map__init__, io_bind, io_lift, requests_get, iio_imread.
  destruct (deg2num _ _ _ _ _) as [xy|]; [|discriminate]. rewrite Hs. now rewrite Hi.
Qed.

Lemma tile_params_lookup x y zoom satellite :
  tile_params x y zoom satellite !! "x" = Some (PInt x) /\
  tile_params x y zoom satellite !! "y" = Some (PInt y) /\
  tile_params x y zoom satellite !! "z" = Some (PInt zoom) /\
  tile_params x y zoom satellite !! "lyrs" = (if satellite then Some (PStr "s") else None) /\
  (forall k, is_Some (tile_params x y zoom satellite !! k) ->
             k = "x" \/ k = "y" \/ k = "z" \/ k = "lyrs").
Proof.
  unfold tile_params. destruct satellite; repeat split;
    try (intros k [v Hk]; revert Hk);
    repeat (rewrite lookup_insert; case_decide; subst; try discriminate; try reflexivity;
            try (intros _; tauto));
    try (rewrite lookup_empty; discriminate).
Qed.

(** When [deg2num] raises, nothing is requested. *)
Lemma Map__init__no_request latitude longitude satellite zoom w e :
  deg2num math_tan math_asinh latitude longitude zoom = Raise e ->
  Map__init__ math_tan math_asinh tile_server imread latitude longitude satellite zoom tt w
  = (Raise e, tt, w).
Proof. intros H. unfold Map__init__, io_bind, io_lift. now rewrite H. Qed.

(** C3: constructing a [Map] issues exactly one GET: among the calls the
    construction adds to the trace, whatever was called before (the same
    request included: nothing is cached), there is exactly one request, to the
    tile server's URL, with [x] and [y] the pair of [deg2num], [z] the zoom,
    and [lyrs = 's'] present exactly when [satellite] is true; it is sent
    once, whether it succeeds or raises. *)
Theorem Map__init__one_request latitude longitude satellite zoom x y w :
  deg2num math_tan math_asinh latitude longitude zoom = Ret (x, y) ->
  exists req evs,
    snd (Map__init__ math_tan math_asinh tile_server imread
           latitude longitude satellite zoom tt w) = (w ++ evs)%list /\
    filter (fun ev => is_http_get ev = true) evs = [EvHttpGet req (tile_server w req)] /\
    url req = "https://mt0.google.com/vt?" /\
    params req !! "x" = Some (PInt x) /\
    params req !! "y" = Some (PInt y) /\
    params req !! "z" = Some (PInt zoom) /\
    (params req !! "lyrs" = Some (PStr "s") <-> satellite = true) /\
    (params req !! "lyrs" = None <-> satellite = false) /\
    (forall k, is_Some (params req !! k) -> k = "x" \/ k = "y" \/ k = "z" \/ k = "lyrs").
Proof.
  intros Hd.
  exists {| url := "https://mt0.google.com/vt?"; params := tile_params x y zoom satellite |}.
  destruct (tile_params_lookup x y zoom satellite) as (Hx & Hy & Hz & Hl & Hdom).
  unfold Map__init__, io_bind, io_lift, requests_get, iio_imread, io_ret.
  rewrite Hd. cbn [fst snd]. fold (tile_params x y zoom satellite).
  set (req := {| url := _; params := _ |}).
  destruct (tile_server w req) as [content|e] eqn:Hs.
  - exists [EvHttpGet req (Ret content); EvImread content (imread content)].
    split.
    { destruct (imread content); simpl; now rewrite <- app_assoc. }
    repeat split; try assumption; simpl; rewrite Hl; destruct satellite; congruence.
  - exists [EvHttpGet req (Raise e)].
    repeat split; try assumption; simpl; rewrite Hl; destruct satellite; congruence.
Qed.

(** ** [Map]: the invariant between [image] and [pixels] *)

(** C6: a [Map] that [__init__] returns has [pixels = imread(image)], and
    [deg2num], [green] and [count_green] leave the object as it is, hence the
    invariant in place. *)
Theorem Map_invariant_established_and_kept latitude longitude satellite zoom w (m : Map) :
  fst (fst (Map__init__ math_tan math_asinh tile_server imread
              latitude longitude satellite zoom tt w)) = Ret m ->
  Map_invariant imread m /\
  (forall la lo z, snd (Map_deg2num math_tan math_asinh la lo z m) = m) /\
  (forall threshold, snd (Map_green threshold m) = m) /\
  (forall threshold, snd (Map_count_green threshold m) = m) /\
  (forall la lo z, Map_invariant imread (snd (Map_deg2num math_tan math_asinh la lo z m))) /\
  (forall threshold, Map_invariant imread (snd (Map_green threshold m))) /\
  (forall threshold, Map_invariant imread (snd (Map_count_green threshold m))).
Proof.
  intros Hinit.
  assert (Hinv : Map_invariant imread m).
  { revert Hinit. unfold Map__init__, io_bind, io_lift, requests_get, iio_imread, io_ret.
    destruct (deg2num _ _ _ _ _) as [xy|]; [|discriminate]. cbn [fst snd].
    match goal with |- context [tile_server w ?r] => destruct (tile_server w r) as [content|] end;
      [|discriminate].
    destruct (imread content) as [px|] eqn:Hpx; [|discriminate].
    simpl. intros [= <-]. exact Hpx. }
  repeat split; intros; try reflexivity; exact Hinv.
Qed.

(** The results of [green], [count_green] and [deg2num] are functions of the
    [pixels] field and of the arguments: the [image] field is not read. *)
Lemma Map_green_reads_pixels threshold (m m' : Map) :
  pixels m = pixels m' ->
  fst (Map_green threshold m) = fst (Map_green threshold m') /\
  fst (Map_count_green threshold m) = fst (Map_count_green threshold m').
Proof. intros H. unfold Map_count_green, Map_green. simpl. now rewrite H. Qed.

Lemma Map_deg2num_reads_arguments la lo z (m m' : Map) :
  fst (Map_deg2num math_tan math_asinh la lo z m)
  = fst (Map_deg2num math_tan math_asinh la lo z m').
Proof. reflexivity. Qed.

End GreengraphFacts.

(** ** The code run in the closed environment *)

Example deg2num_origin :
  deg2num tan_first_order asinh_first_order 0 0 10 = Ret (512, 512).
Proof. vm_compute. reflexivity. Qed.

Lemma Map__init__one_request_witness :
  deg2num tan_first_order asinh_first_order 0 0 10 = Ret (512, 512) /\
  exists req evs,
    snd (Map__init__ tan_first_order asinh_first_order constant_server raw_rgb_decoder
           0 0 true 10 tt []) = ([] ++ evs)%list /\
    filter (fun ev => is_http_get ev = true) evs = [EvHttpGet req (constant_server [] req)] /\
    url req = "https://mt0.google.com/vt?" /\
    params req !! "x" = Some (PInt 512) /\
    params req !! "y" = Some (PInt 512) /\
    params req !! "z" = Some (PInt 10) /\
    (params req !! "lyrs" = Some (PStr "s") <-> true = true) /\
    (params req !! "lyrs" = None <-> true = false) /\
    (forall k, is_Some (params req !! k) -> k = "x" \/ k = "y" \/ k = "z" \/ k = "lyrs").
Proof.
  split; [vm_compute; reflexivity|].
  apply (Map__init__one_request tan_first_order asinh_first_order constant_server
           raw_rgb_decoder 0 0 true 10 512 512 []).
  vm_compute. reflexivity.
Defined.

Lemma Map_invariant_established_and_kept_witness :
  fst (fst (Map__init__ tan_first_order asinh_first_order constant_server raw_rgb_decoder
              0 0 true 10 tt [])) = Ret origin_map /\
  Map_invariant raw_rgb_decoder origin_map /\
  (forall la lo z,
     snd (Map_deg2num tan_first_order asinh_first_order la lo z origin_map) = origin_map) /\
  (forall threshold, snd (Map_green threshold origin_map) = origin_map) /\
  (forall threshold, snd (Map_count_green threshold origin_map) = origin_map) /\
  (forall la lo z,
     Map_invariant raw_rgb_decoder
       (snd (Map_deg2num tan_first_order asinh_first_order la lo z origin_map))) /\
  (forall threshold, Map_invariant raw_rgb_decoder (snd (Map_green threshold origin_map))) /\
  (forall threshold, Map_invariant raw_rgb_decoder (snd (Map_count_green threshold origin_map))).
Proof.
  split; [vm_compute; reflexivity|].
  apply (Map_invariant_established_and_kept tan_first_order asinh_first_order
           constant_server raw_rgb_decoder 0 0 true 10 []).
  vm_compute. reflexivity.
Defined.

Example origin_map_is_green :
  fst (Map_count_green 0x1.199999999999ap+0%float origin_map) = Ret 1.
Proof. vm_compute. reflexivity. Qed.

(** Two constructions with the same arguments send two requests. *)
Example two_maps_two_requests :
  let init := Map__init__ tan_first_order asinh_first_order constant_server raw_rgb_decoder
                0 0 true 10 in
  length (filter (fun ev => is_http_get ev = true)
            (snd (io_bind init (fun _ => init) tt []))) = 2%nat.
Proof. vm_compute. reflexivity. Qed.

(** * Further properties *)

(** ** Array operations *)

Lemma select_length {A B} (mask : list bool) (xs : list A) (ys : list B) :
  length xs = length ys -> length (select mask xs) = length (select mask ys).
Proof.
  revert xs ys. induction mask as [|b mask IH]; intros [|x xs] [|y ys] H;
    simpl in *; try reflexivity; try discriminate.
  injection H as H. destruct b; simpl; auto.
Qed.

Lemma select_Forall {A} (P : A -> Prop) (mask : list bool) (xs : list A) :
  Forall P xs -> Forall P (select mask xs).
Proof.
  revert xs. induction mask as [|b mask IH]; intros [|x xs] H; simpl; try constructor.
  apply Forall_cons_1 in H as [Hx Hxs]. destruct b; [constructor|]; auto.
Qed.

Lemma fill_length {A} start len (v : A) xs : length (fill start len v xs) = length xs.
Proof.
  revert start. induction len as [|len IH]; intros start; simpl; [reflexivity|].
  now rewrite length_insert.
Qed.

Lemma fill_Forall {A} (P : A -> Prop) start len (v : A) xs :
  P v -> Forall P xs -> Forall P (fill start len v xs).
Proof.
  intros Hv Hxs. revert start. induction len as [|len IH]; intros start; simpl; [exact Hxs|].
  apply Forall_insert; auto.
Qed.

Lemma axis_index_in_axis n i : in_axis n i -> exists j, axis_index n i = Some j.
Proof.
  intros [H0 Hn]. unfold axis_index.
  destruct (Z.ltb_spec i 0); [lia|].
  destruct (Z.leb_spec 0 i); [|lia]. destruct (Z.ltb_spec i (Z.of_nat n)); [|lia].
  simpl. eauto.
Qed.

Lemma assign_cells_in_axis {A} (P : A -> Prop) h w block cells (v : A) xs :
  Forall (fun rc => in_axis h (fst rc) /\ in_axis w (snd rc)) cells ->
  P v -> Forall P xs ->
  exists ys, assign_cells h w block cells v xs = Ret ys
             /\ length ys = length xs /\ Forall P ys.
Proof.
  intros Hcells Hv. revert xs.
  induction Hcells as [|[r c] cells [Hr Hc] _ IH]; intros xs Hxs; simpl.
  - eauto.
  - destruct (axis_index_in_axis h r Hr) as [i ->].
    destruct (axis_index_in_axis w c Hc) as [j ->].
    destruct (IH (fill ((i * w + j) * block) block v xs)) as (ys & Hys & Hlen & HP).
    { now apply fill_Forall. }
    exists ys. rewrite Hys, Hlen, fill_length. auto.
Qed.

Lemma combine_in_axis h w rows cols :
  Forall (in_axis h) rows -> Forall (in_axis w) cols ->
  Forall (fun rc => in_axis h (fst rc) /\ in_axis w (snd rc)) (combine rows cols).
Proof.
  intros Hr. revert cols. induction Hr as [|r rows Hr _ IH]; intros cols Hc; simpl.
  - constructor.
  - destruct Hc as [|c cols Hc Hcs]; constructor; auto.
Qed.

Lemma np_mgrid_rows h w :
  length (row_of (np_mgrid h w)) = (h * w)%nat /\ Forall (in_axis h) (row_of (np_mgrid h w)).
Proof.
  simpl. split.
  - rewrite length_flat_map. 
    assert (Hs : forall l, list_sum (map (fun i => length (repeat (Z.of_nat i) w)) l)
                           = (length l * w)%nat).
    { induction l as [|a l IHl]; simpl; [reflexivity|]. rewrite repeat_length. lia. }
    rewrite Hs, length_seq. reflexivity.
  - apply Forall_flat_map, Forall_forall. intros i Hi.
    apply list_elem_of_In, in_seq in Hi. apply Forall_forall. intros x Hx.
    apply list_elem_of_In, repeat_spec in Hx. subst x. unfold in_axis. lia.
Qed.

Lemma np_mgrid_cols h w :
  length (col_of (np_mgrid h w)) = (h * w)%nat /\ Forall (in_axis w) (col_of (np_mgrid h w)).
Proof.
  simpl. split.
  - rewrite length_flat_map.
    assert (Hs : forall l : list nat,
               list_sum (map (fun _ => length (map Z.of_nat (seq 0 w))) l)
               = (length l * w)%nat).
    { induction l as [|a l IHl]; simpl; [reflexivity|].
      rewrite length_map, length_seq in *. lia. }
    rewrite Hs, length_seq. reflexivity.
  - apply Forall_flat_map, Forall_forall. intros i Hi.
    apply Forall_forall. intros x Hx.
    apply list_elem_of_In, in_map_iff in Hx as (j & <- & Hj).
    apply in_seq in Hj. unfold in_axis. lia.
Qed.

(** ** [mandel7] on the array it was written for *)

Lemma shape_eqb_refl sh : shape_eqb sh sh = true.
Proof. unfold shape_eqb. now apply bool_decide_eq_true_2. Qed.

Lemma float_of_int_in_range n :
  Z.abs n < 2 ^ 1024 - 2 ^ 970 -> float_of_int n = Ret (float_of_Z n).
Proof.
  intros H. unfold float_of_int.
  destruct (Z.leb_spec (2 ^ 1024 - 2 ^ 970) (Z.abs n)); [lia | reflexivity].
Qed.

Lemma float_of_int_overflow n :
  2 ^ 1024 - 2 ^ 970 <= Z.abs n ->
  float_of_int n = Raise (Exn OverflowError "int too large to convert to float").
Proof.
  intros H. unfold float_of_int.
  destruct (Z.leb_spec (2 ^ 1024 - 2 ^ 970) (Z.abs n)); [reflexivity | lia].
Qed.

Lemma mandel7_body_keeps h w L st limit :
  L <= 2 ^ 1024 - 2 ^ 970 ->
  0 <= limit < L -> mandel7_invariant h w L st ->
  exists st', mandel7_body st limit = Ret st' /\ mandel7_invariant h w L st'.
Proof.
  intros HL Hlimit (Hps & Hgs & Hpl & Hrl & Hcl & Hr & Hc & Hds & Hdl & Hd).
  destruct st as [ps v ix d]; simpl in *.
  unfold mandel7_body; simpl. rewrite float_of_int_in_range by lia.
  unfold nd_map2. rewrite Hps, shape_eqb_refl. simpl.
  unfold index_select at 1. simpl. rewrite Hgs, shape_eqb_refl. simpl.
  unfold mask_select at 1. simpl. rewrite shape_eqb_refl. simpl.
  unfold index_select at 1. simpl. rewrite Hgs, shape_eqb_refl. simpl.
  unfold mask_select at 1. simpl. rewrite Hps, shape_eqb_refl. simpl.
  unfold fancy_assign. simpl. rewrite Hds.
  set (v' := map (fun p => cadd (cmul (fst p) (fst p)) (snd p)) (combine (flat v) (flat ps))).
  assert (Hv' : length v' = length (flat v)).
  { subst v'. rewrite length_map, length_combine. lia. }
  set (now := map (fun v0 => complex_gt (cmul v0 (conj v0)) (Cx 4 0)) v').
  set (carry := map negb now).
  match goal with
  | |- context [assign_cells ?a ?b ?c ?cells ?x ?xs] =>
      destruct (assign_cells_in_axis (is_count L) a b c cells x xs)
        as (ys & Hys & Hylen & HyP)
  end.
  { apply combine_in_axis; now apply select_Forall. }
  { right. exists limit. split; [lia | reflexivity]. }
  { exact Hd. }
  rewrite Hys. simpl. eexists. split; [reflexivity|].
  unfold mandel7_invariant; simpl.
  assert (Hsel : forall (A B : Type) (xs : list A) (ys : list B),
             length xs = length ys ->
             length (select carry xs) = length (select carry ys))
    by (intros; now apply select_length).
  repeat split.
  - f_equal. apply Hsel. lia.
  - f_equal. apply Hsel. lia.
  - apply Hsel. lia.
  - apply Hsel. lia.
  - apply Hsel. lia.
  - now apply select_Forall.
  - now apply select_Forall.
  - lia.
  - exact HyP.
Qed.

(** A [limit] that does not fit a float stops the pass at its last
    statement. *)
Lemma mandel7_body_overflow h w L st limit :
  2 ^ 1024 - 2 ^ 970 <= limit -> mandel7_invariant h w L st ->
  mandel7_body st limit = Raise (Exn OverflowError "int too large to convert to float").
Proof.
  intros Hlimit (Hps & Hgs & Hpl & Hrl & Hcl & Hr & Hc & Hds & Hdl & Hd).
  destruct st as [ps v ix d]; simpl in *.
  unfold mandel7_body; simpl. rewrite float_of_int_overflow by lia.
  unfold nd_map2. rewrite Hps, shape_eqb_refl. simpl.
  unfold index_select at 1. simpl. rewrite Hgs, shape_eqb_refl. simpl.
  unfold mask_select at 1. simpl. rewrite shape_eqb_refl. simpl.
  unfold index_select at 1. simpl. rewrite Hgs, shape_eqb_refl. simpl.
  unfold mask_select at 1. simpl. rewrite Hps, shape_eqb_refl. reflexivity.
Qed.

Lemma mandel7_while_keeps h w L limit :
  L <= 2 ^ 1024 - 2 ^ 970 ->
  forall st, limit <= L -> mandel7_invariant h w L st ->
  exists d, mandel7_while st limit = Ret d
            /\ shape d = [h; w] /\ length (flat d) = (h * w)%nat
            /\ Forall (is_count L) (flat d).
Proof.
  intros Hfits. remember (Z.to_nat limit) as n eqn:Hn. revert limit Hn.
  induction n as [|n IH]; intros limit Hn st HL Hinv.
  - rewrite mandel7_while_done by lia.
    destruct Hinv as (_ & _ & _ & _ & _ & _ & _ & Hds & Hdl & Hd). eauto.
  - rewrite mandel7_while_step by lia.
    destruct (mandel7_body_keeps h w L st (limit - 1)) as (st' & -> & Hinv');
      [exact Hfits | lia | exact Hinv |].
    apply IH; [lia | lia | exact Hinv'].
Qed.

Lemma mandel7_invariant_initial (position : ndarray complex) (h w : nat) (L : Z) :
  shape position = [h; w] ->
  length (flat position) = (h * w)%nat ->
  mandel7_invariant h w L
    {| positions := nd_map (cadd (Cx 0 0)) position;
       value := nd_map (cadd (Cx 0 0)) position;
       indices := np_mgrid h w;
       diverged_at_count := np_zeros (shape position) |}.
Proof.
  intros Hs Hl.
  destruct (np_mgrid_rows h w) as [Hrl Hr]. destruct (np_mgrid_cols h w) as [Hcl Hc].
  unfold mandel7_invariant; simpl in *.
  rewrite length_map, Hs, Hl.
  repeat split; try reflexivity; try assumption.
  - rewrite repeat_length. simpl. lia.
  - apply Forall_forall. intros x Hx.
    apply list_elem_of_In, repeat_spec in Hx. now left.
Qed.

(** X1: called as in the notebook, with the global [values] of the shape of
    [position] (a well-formed two-dimensional array), [mandel7] returns for
    every [limit] whose counts fit a float ([limit <= 2^1024 - 2^970]): the
    result has the shape of [position], and each entry is either 0 or one of
    the counts [0 .. limit - 1].  For a larger [limit] the first pass already
    raises [OverflowError], when it stores the count. *)
Theorem mandel7_with_matching_values (g : globals) (position : ndarray complex)
  (limit : Z) (h w : nat) :
  shape position = [h; w] ->
  length (flat position) = (h * w)%nat ->
  shape (values g) = [h; w] ->
  (limit <= 2 ^ 1024 - 2 ^ 970 ->
   exists d, mandel7 g position limit = Ret d
             /\ shape d = [h; w] /\ length (flat d) = (h * w)%nat
             /\ Forall (is_count limit) (flat d)) /\
  (2 ^ 1024 - 2 ^ 970 < limit ->
   mandel7 g position limit
   = Raise (Exn OverflowError "int too large to convert to float")).
Proof.
  intros Hs Hl Hg. split; intros Hlimit; unfold mandel7; rewrite Hg; simpl.
  - apply mandel7_while_keeps; [exact Hlimit | lia |].
    now apply mandel7_invariant_initial.
  - rewrite mandel7_while_step by lia.
    now rewrite (mandel7_body_overflow h w limit)
      by (try lia; now apply mandel7_invariant_initial).
Qed.

Lemma mandel7_with_matching_values_witness :
  let position := NdArray [2; 2]%nat [Cx 0 0; Cx 3 0; Cx 0 0; Cx 1 0] in
  exists d, mandel7 {| values := position |} position 3 = Ret d
            /\ shape d = [2; 2]%nat /\ length (flat d) = (2 * 2)%nat
            /\ Forall (is_count 3) (flat d).
Proof.
  intro position.
  apply (proj1 (mandel7_with_matching_values {| values := position |} position 3 2%nat 2%nat
                  eq_refl eq_refl eq_refl)).
  lia.
Defined.

(** ** [mandel4], [mandel5], [mandel6]: shapes and counts *)

Lemma assign_where_length {A} mask (v : A) xs : length (assign_where mask v xs) = length xs.
Proof.
  revert xs. induction mask as [|b mask IH]; intros [|x xs]; simpl; try reflexivity.
  now rewrite IH.
Qed.

Lemma assign_where_Forall {A} (P : A -> Prop) mask (v : A) xs :
  P v -> Forall P xs -> Forall P (assign_where mask v xs).
Proof.
  intros Hv. revert xs. induction mask as [|b mask IH]; intros [|x xs] H; simpl;
    try assumption.
  apply Forall_cons_1 in H as [Hx Hxs]. constructor; [now destruct b | auto].
Qed.

Lemma scatter_length {A} mask (ys xs : list A) : length (scatter mask ys xs) = length xs.
Proof.
  revert ys xs. induction mask as [|b mask IH]; intros ys [|x xs]; simpl; try reflexivity.
  - now destruct b.
  - destruct b; [destruct ys|]; simpl; try reflexivity; now rewrite IH.
Qed.

Lemma mandel4_body_counting np_abs position st limit :
  mandel4_body np_abs position st limit
  = counting_body (fun v => (2 <? np_abs v)%float) position st limit.
Proof. reflexivity. Qed.

Lemma mandel5_body_counting position st limit :
  mandel5_body position st limit
  = counting_body (fun v => complex_gt (cmul v (conj v)) (Cx 4 0)) position st limit.
Proof. reflexivity. Qed.

Lemma item_assignable_axes {A} (x : ndarray A) :
  shape x <> [] -> item_assignable x = Ret tt.
Proof. unfold item_assignable. now destruct (shape x). Qed.

Lemma item_assignable_scalar {A} (x : ndarray A) :
  shape x = [] ->
  item_assignable x
  = Raise (Exn TypeError "'numpy.complex128' object does not support item assignment").
Proof. unfold item_assignable. now intros ->. Qed.

Lemma counting_body_keeps diverges position L st limit :
  shape position <> [] ->
  L <= 2 ^ 1024 - 2 ^ 970 ->
  0 <= limit < L -> counting_invariant position L st ->
  exists st', counting_body diverges position st limit = Ret st'
              /\ counting_invariant position L st'.
Proof.
  intros Haxes Hfits Hlimit (Hvs & Hvl & Hds & Hdl & Hd).
  destruct st as [v d]; simpl in *.
  unfold counting_body. rewrite float_of_int_in_range by lia.
  unfold nd_map2, mask_assign; simpl.
  repeat (rewrite ?Hvs, ?Hds, ?shape_eqb_refl; simpl).
  rewrite item_assignable_axes by exact Haxes. simpl.
  eexists. split; [reflexivity|].
  unfold counting_invariant; simpl.
  rewrite !assign_where_length, length_map, length_combine.
  repeat split; try lia.
  apply assign_where_Forall; [|exact Hd].
  right. exists limit. split; [lia | reflexivity].
Qed.

(** A [limit] that does not fit a float stops the pass where it stores the
    count. *)
Lemma counting_body_overflow diverges position L st limit :
  2 ^ 1024 - 2 ^ 970 <= limit -> counting_invariant position L st ->
  counting_body diverges position st limit
  = Raise (Exn OverflowError "int too large to convert to float").
Proof.
  intros Hlimit (Hvs & Hvl & Hds & Hdl & Hd).
  destruct st as [v d]; simpl in *.
  unfold counting_body. rewrite float_of_int_overflow by lia.
  unfold nd_map2; simpl.
  repeat (rewrite ?Hvs, ?Hds, ?shape_eqb_refl; simpl). reflexivity.
Qed.

(** On a [position] without axes the pass stops at [value[diverging] = 2]:
    [value] is a scalar there. *)
Lemma counting_body_without_axes diverges position L st limit :
  shape position = [] ->
  0 <= limit < 2 ^ 1024 - 2 ^ 970 -> counting_invariant position L st ->
  counting_body diverges position st limit
  = Raise (Exn TypeError "'numpy.complex128' object does not support item assignment").
Proof.
  intros Hscalar Hlimit (Hvs & Hvl & Hds & Hdl & Hd).
  destruct st as [v d]; simpl in *.
  unfold counting_body. rewrite float_of_int_in_range by lia.
  unfold nd_map2, mask_assign; simpl.
  repeat (rewrite ?Hvs, ?Hds, ?shape_eqb_refl; simpl).
  rewrite item_assignable_scalar by exact Hscalar. reflexivity.
Qed.

Lemma mandel5_while_done position st limit :
  limit <= 0 -> mandel5_while position st limit = Ret (diverged_at_count5 st).
Proof.
  intros Hlimit. funelim (mandel5_while position st limit); try reflexivity;
    match goal with
    | Hgt : (_ >? 0) = true |- _ => pose proof (proj1 (Z.gtb_lt _ _) Hgt); lia
    end.
Qed.

Lemma mandel5_while_step position st limit :
  0 < limit ->
  mandel5_while position st limit
  = match mandel5_body position st (limit - 1) with
    | Raise e => Raise e
    | Ret st' => mandel5_while position st' (limit - 1)
    end.
Proof.
  intros Hlimit. funelim (mandel5_while position st limit).
  - pose proof (proj2 (Z.gtb_lt limit 0) ltac:(lia)); congruence.
  - now match goal with Hb : mandel5_body _ _ _ = _ |- _ => rewrite Hb end.
  - now match goal with Hb : mandel5_body _ _ _ = _ |- _ => rewrite Hb end.
Qed.

Lemma mandel4_while_done np_abs position st limit :
  limit <= 0 -> mandel4_while np_abs position st limit = Ret (diverged_at_count5 st).
Proof.
  intros Hlimit. funelim (mandel4_while np_abs position st limit); try reflexivity;
    match goal with
    | Hgt : (_ >? 0) = true |- _ => pose proof (proj1 (Z.gtb_lt _ _) Hgt); lia
    end.
Qed.

Lemma mandel4_while_step np_abs position st limit :
  0 < limit ->
  mandel4_while np_abs position st limit
  = match mandel4_body np_abs position st (limit - 1) with
    | Raise e => Raise e
    | Ret st' => mandel4_while np_abs position st' (limit - 1)
    end.
Proof.
  intros Hlimit. funelim (mandel4_while np_abs position st limit).
  - pose proof (proj2 (Z.gtb_lt limit 0) ltac:(lia)); congruence.
  - now match goal with Hb : mandel4_body _ _ _ _ = _ |- _ => rewrite Hb end.
  - now match goal with Hb : mandel4_body _ _ _ _ = _ |- _ => rewrite Hb end.
Qed.

Lemma counting_invariant_initial position L :
  well_formed position ->
  counting_invariant position L
    {| value5 := position; diverged_at_count5 := np_zeros (shape position) |}.
Proof.
  intros Hwf. unfold counting_invariant; simpl. rewrite repeat_length.
  repeat split; try (symmetry; exact Hwf).
  apply Forall_forall. intros x Hx. apply list_elem_of_In, repeat_spec in Hx. now left.
Qed.

Lemma mandel5_while_keeps position L limit :
  shape position <> [] ->
  L <= 2 ^ 1024 - 2 ^ 970 ->
  forall st, limit <= L -> counting_invariant position L st ->
  exists d, mandel5_while position st limit = Ret d
            /\ shape d = shape position /\ length (flat d) = length (flat position)
            /\ Forall (is_count L) (flat d).
Proof.
  intros Haxes Hfits. remember (Z.to_nat limit) as n eqn:Hn. revert limit Hn.
  induction n as [|n IH]; intros limit Hn st HL Hinv.
  - rewrite mandel5_while_done by lia.
    destruct Hinv as (_ & _ & Hds & Hdl & Hd). eauto.
  - rewrite mandel5_while_step, mandel5_body_counting by lia.
    destruct (counting_body_keeps (fun v => complex_gt (cmul v (conj v)) (Cx 4 0))
                position L st (limit - 1)) as (st' & -> & Hinv');
      [exact Haxes | exact Hfits | lia | exact Hinv |].
    apply IH; [lia | lia | exact Hinv'].
Qed.

Lemma mandel4_while_keeps np_abs position L limit :
  shape position <> [] ->
  L <= 2 ^ 1024 - 2 ^ 970 ->
  forall st, limit <= L -> counting_invariant position L st ->
  exists d, mandel4_while np_abs position st limit = Ret d
            /\ shape d = shape position /\ length (flat d) = length (flat position)
            /\ Forall (is_count L) (flat d).
Proof.
  intros Haxes Hfits. remember (Z.to_nat limit) as n eqn:Hn. revert limit Hn.
  induction n as [|n IH]; intros limit Hn st HL Hinv.
  - rewrite mandel4_while_done by lia.
    destruct Hinv as (_ & _ & Hds & Hdl & Hd). eauto.
  - rewrite mandel4_while_step, mandel4_body_counting by lia.
    destruct (counting_body_keeps (fun v => (2 <? np_abs v)%float)
                position L st (limit - 1)) as (st' & -> & Hinv');
      [exact Haxes | exact Hfits | lia | exact Hinv |].
    apply IH; [lia | lia | exact Hinv'].
Qed.

(** X2: on a well-formed array with at least one axis, [mandel5] returns for
    every [limit] whose counts fit a float ([limit <= 2^1024 - 2^970]); the
    result has the shape of [position], and each entry is either 0 or one of
    the counts [0 .. limit - 1].  For a larger [limit] the first pass raises
    [OverflowError], when it stores the count. *)
Theorem mandel5_counts (position : ndarray complex) (limit : Z) :
  well_formed position ->
  shape position <> [] ->
  (limit <= 2 ^ 1024 - 2 ^ 970 ->
   exists d, mandel5 position limit = Ret d
             /\ shape d = shape position /\ length (flat d) = length (flat position)
             /\ Forall (is_count limit) (flat d)) /\
  (2 ^ 1024 - 2 ^ 970 < limit ->
   mandel5 position limit = Raise (Exn OverflowError "int too large to convert to float")).
Proof.
  intros Hwf Haxes. split; intros Hlimit; unfold mandel5.
  - apply mandel5_while_keeps;
      [exact Haxes | exact Hlimit | lia | now apply counting_invariant_initial].
  - rewrite mandel5_while_step, mandel5_body_counting by lia.
    now rewrite (counting_body_overflow _ position limit)
      by (try lia; now apply counting_invariant_initial).
Qed.

(** X3: the same holds of [mandel4], whatever [abs] computes. *)
Theorem mandel4_counts (np_abs : complex -> float) (position : ndarray complex)
  (limit : Z) :
  well_formed position ->
  shape position <> [] ->
  (limit <= 2 ^ 1024 - 2 ^ 970 ->
   exists d, mandel4 np_abs position limit = Ret d
             /\ shape d = shape position /\ length (flat d) = length (flat position)
             /\ Forall (is_count limit) (flat d)) /\
  (2 ^ 1024 - 2 ^ 970 < limit ->
   mandel4 np_abs position limit
   = Raise (Exn OverflowError "int too large to convert to float")).
Proof.
  intros Hwf Haxes. split; intros Hlimit; unfold mandel4.
  - apply mandel4_while_keeps;
      [exact Haxes | exact Hlimit | lia | now apply counting_invariant_initial].
  - rewrite mandel4_while_step, mandel4_body_counting by lia.
    now rewrite (counting_body_overflow _ position limit)
      by (try lia; now apply counting_invariant_initial).
Qed.

(** On an array without axes (a single complex number wrapped by
    [np.array]) both raise in the first pass: [value] is a NumPy scalar by
    then, and [value[diverging] = 2] is an assignment into it. *)
Lemma mandel5_without_axes (position : ndarray complex) (limit : Z) :
  well_formed position ->
  shape position = [] ->
  0 < limit <= 2 ^ 1024 - 2 ^ 970 ->
  mandel5 position limit
  = Raise (Exn TypeError "'numpy.complex128' object does not support item assignment").
Proof.
  intros Hwf Hscalar Hlimit. unfold mandel5.
  rewrite mandel5_while_step, mandel5_body_counting by lia.
  now rewrite (counting_body_without_axes _ position limit)
    by (try lia; try assumption; now apply counting_invariant_initial).
Qed.

Lemma mandel4_without_axes np_abs (position : ndarray complex) (limit : Z) :
  well_formed position ->
  shape position = [] ->
  0 < limit <= 2 ^ 1024 - 2 ^ 970 ->
  mandel4 np_abs position limit
  = Raise (Exn TypeError "'numpy.complex128' object does not support item assignment").
Proof.
  intros Hwf Hscalar Hlimit. unfold mandel4.
  rewrite mandel4_while_step, mandel4_body_counting by lia.
  now rewrite (counting_body_without_axes _ position limit)
    by (try lia; try assumption; now apply counting_invariant_initial).
Qed.

(** C8: [mandel5] is not [mandel4] without the square root.  At the single
    point 1e200 with [limit] 2 the square overflows in the first pass and
    [value] is [inf+0j].  [mandel4] finds its modulus above 2, for any [abs]
    that gives one above 2 there (the C library's [hypot] gives [inf]), and
    records the count 1.  In [mandel5] the product [value * conj(value)] is
    [inf+nanj], which NumPy's [>] on complex numbers does not place above 4,
    in this pass or the next: the point is never recorded and stays 0. *)
Theorem mandel5_misses_overflowing_point (np_abs : complex -> float) :
  (2 <? np_abs (Cx infinity 0))%float = true ->
  mandel4 np_abs (NdArray [1%nat] [Cx 0x1.4e718d7d7625ap+664 0]) 2
  = Ret (NdArray [1%nat] [1%float]) /\
  mandel5 (NdArray [1%nat] [Cx 0x1.4e718d7d7625ap+664 0]) 2
  = Ret (NdArray [1%nat] [0%float]).
Proof.
  intros H. split.
  - vm_compute. vm_compute in H. rewrite !H. vm_compute.
    match goal with |- context [PrimFloat.ltb ?a ?b] => destruct (PrimFloat.ltb a b) end;
      reflexivity.
  - vm_compute. reflexivity.
Qed.

Lemma mandel5_misses_overflowing_point_witness :
  mandel4 sqrt_modulus (NdArray [1%nat] [Cx 0x1.4e718d7d7625ap+664 0]) 2
  = Ret (NdArray [1%nat] [1%float]) /\
  mandel5 (NdArray [1%nat] [Cx 0x1.4e718d7d7625ap+664 0]) 2
  = Ret (NdArray [1%nat] [0%float]).
Proof.
  apply (mandel5_misses_overflowing_point sqrt_modulus). vm_compute. reflexivity.
Defined.

(** The product of the overflowed value and its conjugate, and the two
    tests on it; the literal is the float nearest to 1e200. *)
Example overflowing_point_tests :
  cadd (cmul (Cx 0x1.4e718d7d7625ap+664 0) (Cx 0x1.4e718d7d7625ap+664 0))
       (Cx 0x1.4e718d7d7625ap+664 0) = Cx infinity 0 /\
  re (cmul (Cx infinity 0) (conj (Cx infinity 0))) = infinity /\
  is_nan (im (cmul (Cx infinity 0) (conj (Cx infinity 0)))) = true /\
  complex_gt (cmul (Cx infinity 0) (conj (Cx infinity 0))) (Cx 4 0) = false /\
  (2 <? sqrt_modulus (Cx infinity 0))%float = true.
Proof. vm_compute. repeat split. Qed.

Lemma mask_select_same_shape {A} (x : ndarray A) (mask : ndarray bool) :
  shape x = shape mask ->
  mask_select x mask
  = Ret (NdArray [length (select (flat mask) (flat x))] (select (flat mask) (flat x))).
Proof. intros H. unfold mask_select. now rewrite H, shape_eqb_refl. Qed.

Lemma mask_scatter_fitting {A} (x : ndarray A) (mask : ndarray bool) (y : ndarray A) :
  shape x = shape mask ->
  length (flat y) = length (select (flat mask) (flat x)) ->
  mask_scatter x mask y = Ret (NdArray (shape x) (scatter (flat mask) (flat y) (flat x))).
Proof.
  intros Hs Hl. unfold mask_scatter. rewrite Hs, shape_eqb_refl, Hl, Nat.eqb_refl.
  now rewrite <- Hs.
Qed.

Lemma nd_map2_same_shape {A B C} (f : A -> B -> C) (x : ndarray A) (y : ndarray B) :
  shape x = shape y ->
  nd_map2 f x y
  = Ret (NdArray (shape x) (map (fun p => f (fst p) (snd p)) (combine (flat x) (flat y)))).
Proof. intros H. unfold nd_map2. now rewrite H, shape_eqb_refl. Qed.

Lemma mask_assign_same_shape {A} (x : ndarray A) (mask : ndarray bool) (v : A) :
  shape x = shape mask ->
  mask_assign x mask v = Ret (NdArray (shape x) (assign_where (flat mask) v (flat x))).
Proof. intros H. unfold mask_assign. now rewrite H, shape_eqb_refl. Qed.

(** A pass of [mandel6] up to its last statement: every selection and
    assignment before it fits. *)
Lemma mandel6_body_before_count position L st limit :
  well_formed position ->
  shape position <> [] ->
  mandel6_invariant position L st ->
  exists value' calculating' diverging_now,
    mandel6_body position st limit
    = (let* count := float_of_int limit in
       let* diverged_at_count := mask_assign (diverged_at_count6 st) diverging_now count in
       Ret {| value6 := value'; calculating := calculating';
              diverged_at_count6 := diverged_at_count |})%result
    /\ shape value' = shape position /\ length (flat value') = length (flat position)
    /\ shape calculating' = shape position
    /\ length (flat calculating') = length (flat position)
    /\ shape diverging_now = shape position.
Proof.
  intros Hwf Haxes (Hvs & Hvl & Hcs & Hcl & Hds & Hdl & Hd).
  destruct st as [v c d]; simpl in *.
  unfold mandel6_body; simpl.
  rewrite (mask_select_same_shape v c) by congruence. simpl.
  rewrite (mask_select_same_shape position c) by congruence. simpl.
  assert (Hk : length (select (flat c) (flat position)) = length (select (flat c) (flat v)))
    by (apply select_length; lia).
  rewrite nd_map2_same_shape by (simpl; now rewrite Hk). simpl.
  rewrite item_assignable_axes by congruence. simpl.
  set (stepped := map (fun p => cadd (cmul (fst p) (fst p)) (snd p))
                      (combine (select (flat c) (flat v)) (select (flat c) (flat position)))).
  assert (Hstepped : length stepped = length (select (flat c) (flat v))).
  { subst stepped. rewrite length_map, length_combine. lia. }
  rewrite mask_scatter_fitting by (simpl; congruence). simpl.
  set (v1 := scatter (flat c) stepped (flat v)).
  assert (Hv1 : length v1 = length (flat position))
    by (subst v1; rewrite scatter_length; exact Hvl).
  rewrite (mask_select_same_shape (NdArray (shape v) v1) c) by (simpl; congruence). simpl.
  rewrite nd_map2_same_shape by reflexivity. simpl.
  set (prod := map (fun p => cmul (fst p) (conj (snd p)))
                   (combine (select (flat c) v1) (select (flat c) v1))).
  assert (Hprod : length prod = length (select (flat c) v1)).
  { subst prod. rewrite length_map, length_combine. lia. }
  rewrite mask_scatter_fitting; simpl.
  2: congruence.
  2: { rewrite length_map, Hprod. apply select_length.
       rewrite repeat_length, Hv1. exact Hwf. }
  set (dn := scatter (flat c) (map (fun z => complex_gt z (Cx 4 0)) prod)
                     (repeat false (size_of (shape position)))).
  assert (Hdn : length dn = length (flat position)).
  { subst dn. rewrite scatter_length, repeat_length. symmetry. exact Hwf. }
  rewrite nd_map2_same_shape by (simpl; congruence). simpl.
  eexists _, _, (NdArray (shape position) dn). split; [reflexivity|]. simpl.
  rewrite length_map, length_combine, length_map.
  repeat split; try assumption; lia.
Qed.

Lemma mandel6_body_keeps position L st limit :
  well_formed position ->
  shape position <> [] ->
  L <= 2 ^ 1024 - 2 ^ 970 ->
  0 <= limit < L -> mandel6_invariant position L st ->
  exists st', mandel6_body position st limit = Ret st'
              /\ mandel6_invariant position L st'.
Proof.
  intros Hwf Haxes Hfits Hlimit Hinv.
  destruct (mandel6_body_before_count position L st limit Hwf Haxes Hinv)
    as (v' & c' & dn & -> & Hvs' & Hvl' & Hcs' & Hcl' & Hdn).
  destruct Hinv as (Hvs & Hvl & Hcs & Hcl & Hds & Hdl & Hd).
  rewrite float_of_int_in_range by lia. simpl.
  rewrite mask_assign_same_shape by congruence. simpl.
  eexists. split; [reflexivity|].
  unfold mandel6_invariant; simpl. rewrite assign_where_length.
  repeat split; try assumption.
  apply assign_where_Forall; [|exact Hd].
  right. exists limit. split; [lia | reflexivity].
Qed.

Lemma mandel6_body_overflow position L st limit :
  well_formed position ->
  shape position <> [] ->
  2 ^ 1024 - 2 ^ 970 <= limit -> mandel6_invariant position L st ->
  mandel6_body position st limit
  = Raise (Exn OverflowError "int too large to convert to float").
Proof.
  intros Hwf Haxes Hlimit Hinv.
  destruct (mandel6_body_before_count position L st limit Hwf Haxes Hinv)
    as (v' & c' & dn & -> & _).
  now rewrite float_of_int_overflow by lia.
Qed.

(** On a [position] without axes the pass stops at its first statement:
    [value] is a scalar, and [value[calculating] = ...] assigns into it. *)
Lemma mandel6_body_without_axes position L st limit :
  shape position = [] ->
  mandel6_invariant position L st ->
  mandel6_body position st limit
  = Raise (Exn TypeError "'numpy.complex128' object does not support item assignment").
Proof.
  intros Hscalar (Hvs & Hvl & Hcs & Hcl & Hds & Hdl & Hd).
  destruct st as [v c d]; simpl in *.
  unfold mandel6_body; simpl.
  rewrite (mask_select_same_shape v c) by congruence. simpl.
  rewrite (mask_select_same_shape position c) by congruence. simpl.
  assert (Hk : length (select (flat c) (flat position)) = length (select (flat c) (flat v)))
    by (apply select_length; lia).
  rewrite nd_map2_same_shape by (simpl; now rewrite Hk). simpl.
  rewrite item_assignable_scalar by congruence. reflexivity.
Qed.

Lemma mandel6_while_done position st limit :
  limit <= 0 -> mandel6_while position st limit = Ret (diverged_at_count6 st).
Proof.
  intros Hlimit. funelim (mandel6_while position st limit); try reflexivity;
    match goal with
    | Hgt : (_ >? 0) = true |- _ => pose proof (proj1 (Z.gtb_lt _ _) Hgt); lia
    end.
Qed.

Lemma mandel6_while_step position st limit :
  0 < limit ->
  mandel6_while position st limit
  = match mandel6_body position st (limit - 1) with
    | Raise e => Raise e
    | Ret st' => mandel6_while position st' (limit - 1)
    end.
Proof.
  intros Hlimit. funelim (mandel6_while position st limit).
  - pose proof (proj2 (Z.gtb_lt limit 0) ltac:(lia)); congruence.
  - now match goal with Hb : mandel6_body _ _ _ = _ |- _ => rewrite Hb end.
  - now match goal with Hb : mandel6_body _ _ _ = _ |- _ => rewrite Hb end.
Qed.

Lemma mandel6_while_keeps position L limit :
  well_formed position ->
  shape position <> [] ->
  L <= 2 ^ 1024 - 2 ^ 970 ->
  forall st, limit <= L -> mandel6_invariant position L st ->
  exists d, mandel6_while position st limit = Ret d
            /\ shape d = shape position /\ length (flat d) = length (flat position)
            /\ Forall (is_count L) (flat d).
Proof.
  intros Hwf Haxes Hfits. remember (Z.to_nat limit) as n eqn:Hn. revert limit Hn.
  induction n as [|n IH]; intros limit Hn st HL Hinv.
  - rewrite mandel6_while_done by lia.
    destruct Hinv as (_ & _ & _ & _ & Hds & Hdl & Hd). eauto.
  - rewrite mandel6_while_step by lia.
    destruct (mandel6_body_keeps position L st (limit - 1)) as (st' & -> & Hinv');
      [exact Hwf | exact Haxes | exact Hfits | lia | exact Hinv |].
    apply IH; [lia | lia | exact Hinv'].
Qed.

Lemma mandel6_invariant_initial position L :
  well_formed position ->
  mandel6_invariant position L
    {| value6 := nd_map (cadd (Cx 0 0)) position;
       calculating := np_full (shape position) true;
       diverged_at_count6 := np_zeros (shape position) |}.
Proof.
  intros Hwf. unfold mandel6_invariant; simpl. rewrite length_map, !repeat_length.
  repeat split; try (symmetry; exact Hwf).
  apply Forall_forall. intros x Hx. apply list_elem_of_In, repeat_spec in Hx. now left.
Qed.

(** X4: [mandel6], with its mask of points still being calculated, returns on
    every well-formed array with at least one axis and every [limit] whose
    counts fit a float ([limit <= 2^1024 - 2^970]): no masked selection or
    assignment ever disagrees on a shape or a length; the result has the shape
    of [position], and each entry is either 0 or one of the counts
    [0 .. limit - 1].  For a larger [limit] the first pass raises
    [OverflowError], when it stores the count. *)
Theorem mandel6_counts (position : ndarray complex) (limit : Z) :
  well_formed position ->
  shape position <> [] ->
  (limit <= 2 ^ 1024 - 2 ^ 970 ->
   exists d, mandel6 position limit = Ret d
             /\ shape d = shape position /\ length (flat d) = length (flat position)
             /\ Forall (is_count limit) (flat d)) /\
  (2 ^ 1024 - 2 ^ 970 < limit ->
   mandel6 position limit = Raise (Exn OverflowError "int too large to convert to float")).
Proof.
  intros Hwf Haxes. split; intros Hlimit; unfold mandel6.
  - apply mandel6_while_keeps;
      [exact Hwf | exact Haxes | exact Hlimit | lia | now apply mandel6_invariant_initial].
  - rewrite mandel6_while_step by lia.
    now rewrite (mandel6_body_overflow position limit)
      by (try lia; try assumption; now apply mandel6_invariant_initial).
Qed.

(** On an array without axes [mandel6] raises in its first pass, whatever
    the [limit] above 0. *)
Lemma mandel6_without_axes (position : ndarray complex) (limit : Z) :
  well_formed position ->
  shape position = [] ->
  0 < limit ->
  mandel6 position limit
  = Raise (Exn TypeError "'numpy.complex128' object does not support item assignment").
Proof.
  intros Hwf Hscalar Hlimit. unfold mandel6.
  rewrite mandel6_while_step by lia.
  now rewrite (mandel6_body_without_axes position limit)
    by (try assumption; now apply mandel6_invariant_initial).
Qed.

Lemma mandel5_counts_witness :
  exists d, mandel5 small_grid 3 = Ret d
            /\ shape d = shape small_grid /\ length (flat d) = length (flat small_grid)
            /\ Forall (is_count 3) (flat d).
Proof.
  apply (proj1 (mandel5_counts small_grid 3 eq_refl ltac:(discriminate))). lia.
Defined.

Lemma mandel4_counts_witness :
  exists d, mandel4 sqrt_modulus small_grid 3 = Ret d
            /\ shape d = shape small_grid /\ length (flat d) = length (flat small_grid)
            /\ Forall (is_count 3) (flat d).
Proof.
  apply (proj1 (mandel4_counts sqrt_modulus small_grid 3 eq_refl ltac:(discriminate))). lia.
Defined.

Lemma mandel6_counts_witness :
  exists d, mandel6 small_grid 3 = Ret d
            /\ shape d = shape small_grid /\ length (flat d) = length (flat small_grid)
            /\ Forall (is_count 3) (flat d).
Proof.
  apply (proj1 (mandel6_counts small_grid 3 eq_refl ltac:(discriminate))). lia.
Defined.

(** The edges of the array versions, on values: an array without axes, and
    a [limit] beyond the floats. *)
Example array_versions_on_edges :
  let scalar := NdArray [] [Cx 0 0] in
  let raises {A} (r : result A) (c : exn_class) :=
    match r with Raise e => exn_class_eqb (exn_type e) c | Ret _ => false end in
  raises (mandel4 sqrt_modulus scalar 3) TypeError = true /\
  raises (mandel5 scalar 3) TypeError = true /\
  raises (mandel6 scalar 3) TypeError = true /\
  mandel5 scalar 0 = Ret (NdArray [] [0%float]) /\
  raises (mandel5 small_grid (2 ^ 1024)) OverflowError = true /\
  raises (mandel7 {| values := small_grid |} small_grid (2 ^ 1024)) OverflowError = true /\
  mandel5 (NdArray [0]%nat []) 3 = Ret (NdArray [0]%nat []).
Proof.
  repeat split; vm_compute; reflexivity.
Qed.

(** On the small grid the four array versions agree. *)
Example array_versions_on_small_grid :
  mandel4 sqrt_modulus small_grid 3 = Ret (NdArray [2; 2]%nat [0; 2; 0; 1]%float) /\
  mandel5 small_grid 3 = Ret (NdArray [2; 2]%nat [0; 2; 0; 1]%float) /\
  mandel6 small_grid 3 = Ret (NdArray [2; 2]%nat [0; 2; 0; 1]%float) /\
  mandel7 {| values := small_grid |} small_grid 3
  = Ret (NdArray [2; 2]%nat [0; 2; 0; 1]%float).
Proof. vm_compute. repeat split. Qed.

(** ** [Map.green] and [Map.count_green] on an image *)

Lemma channel_cells_length {A} n c block k (xs : list A) :
  (k < c)%nat -> length xs = (n * (c * block))%nat ->
  length (channel_cells n c block k xs) = (n * block)%nat.
Proof.
  intros Hk. revert xs. induction n as [|n IH]; intros xs Hxs; simpl; [reflexivity|].
  rewrite length_app, length_firstn, !length_skipn, IH.
  - assert ((k + 1) * block <= c * block)%nat by (apply Nat.mul_le_mono_r; lia). nia.
  - rewrite length_skipn. nia.
Qed.

Lemma channel_of_image {A} (x : ndarray A) h w c k :
  shape x = [h; w; c] -> well_formed x -> (k < c)%nat ->
  exists y, channel x k = Ret y /\ shape y = [h; w] /\ length (flat y) = (h * w)%nat.
Proof.
  intros Hs Hwf Hk. unfold channel. rewrite Hs.
  destruct (Nat.ltb_spec k c); [|lia].
  eexists. split; [reflexivity|]. split; [reflexivity|]. simpl.
  rewrite channel_cells_length; [lia | exact Hk |].
  unfold well_formed in Hwf. rewrite Hs in Hwf. simpl in *. lia.
Qed.

Lemma np_sum_bounds (x : ndarray bool) : 0 <= np_sum x <= Z.of_nat (length (flat x)).
Proof.
  unfold np_sum. induction (flat x) as [|b l IH]; simpl; [lia|].
  destruct b; simpl; lia.
Qed.

(** X5: on a well-formed image with three axes and at least three channels
    (RGB or RGBA), [green] returns one boolean per pixel, an array of shape
    [(h, w)], and [count_green] returns a count between 0 and [h * w]. *)
Theorem Map_green_on_colour_image (m : Map) (threshold : float) (h w c : nat) :
  shape (pixels m) = [h; w; c] -> well_formed (pixels m) -> (3 <= c)%nat ->
  (exists g, fst (Map_green threshold m) = Ret g
             /\ shape g = [h; w] /\ length (flat g) = (h * w)%nat) /\
  (exists n, fst (Map_count_green threshold m) = Ret n /\ 0 <= n <= Z.of_nat (h * w)).
Proof.
  intros Hs Hwf Hc.
  destruct (channel_of_image (pixels m) h w c 1 Hs Hwf ltac:(lia)) as (g & Hg & Hgs & Hgl).
  destruct (channel_of_image (pixels m) h w c 0 Hs Hwf ltac:(lia)) as (r & Hr & Hrs & Hrl).
  destruct (channel_of_image (pixels m) h w c 2 Hs Hwf ltac:(lia)) as (b & Hb & Hbs & Hbl).
  assert (Hgreen : exists a, fst (Map_green threshold m) = Ret a
                             /\ shape a = [h; w] /\ length (flat a) = (h * w)%nat).
  { unfold Map_green; simpl. rewrite Hg, Hr, Hb. simpl.
    rewrite (nd_map2_same_shape _ g r) by congruence. simpl.
    rewrite (nd_map2_same_shape _ g b) by congruence. simpl.
    rewrite nd_map2_same_shape by reflexivity. simpl.
    eexists. split; [reflexivity|]. split; [exact Hgs|].
    cbn [flat]. repeat (rewrite length_map || rewrite length_combine).
    rewrite Hgl, Hrl, Hbl, !Nat.min_id. reflexivity. }
  split; [exact Hgreen|].
  destruct Hgreen as (a & Ha & Has & Hal).
  unfold Map_count_green. destruct (Map_green threshold m) as [ga m'] eqn:Hgm.
  simpl in *. subst ga. simpl. eexists. split; [reflexivity|].
  pose proof (np_sum_bounds a) as Hsum. rewrite Hal in Hsum. exact Hsum.
Qed.

Lemma Map_green_on_colour_image_witness :
  shape (pixels rgb_pixel) = [1; 1; 3]%nat /\ well_formed (pixels rgb_pixel) /\ (3 <= 3)%nat /\
  (exists g, fst (Map_green 0x1.199999999999ap+0%float rgb_pixel) = Ret g
             /\ shape g = [1; 1]%nat /\ length (flat g) = (1 * 1)%nat) /\
  (exists n, fst (Map_count_green 0x1.199999999999ap+0%float rgb_pixel) = Ret n
             /\ 0 <= n <= Z.of_nat (1 * 1)).
Proof.
  split; [reflexivity|]. split; [reflexivity|]. split; [lia|].
  apply (Map_green_on_colour_image rgb_pixel _ 1%nat 1%nat 3%nat); [reflexivity | reflexivity | lia].
Defined.

(** X6: on an image without a colour axis (a greyscale PNG decodes to two
    axes) or with fewer than three channels, [green] and [count_green] raise
    [IndexError]. *)
Theorem Map_green_on_grey_image (m : Map) (threshold : float) :
  (length (shape (pixels m)) < 3)%nat \/
  (exists h w c rest, shape (pixels m) = h :: w :: c :: rest /\ (c < 3)%nat) ->
  exists e, exn_type e = IndexError
            /\ fst (Map_green threshold m) = Raise e
            /\ fst (Map_count_green threshold m) = Raise e.
Proof.
  intros H.
  assert (Hgreen : exists e, exn_type e = IndexError /\ fst (Map_green threshold m) = Raise e).
  { unfold Map_green; simpl. destruct H as [H | (h & w & c & rest & Hs & Hc)].
    - unfold channel at 1.
      destruct (shape (pixels m)) as [|h [|w [|c rest]]]; simpl in *; try lia;
        (eexists; split; [|reflexivity]; reflexivity).
    - destruct c as [|[|[|c]]]; try lia.
      + unfold channel at 1. rewrite Hs. simpl.
        eexists; split; [|reflexivity]; reflexivity.
      + unfold channel at 1. rewrite Hs. simpl.
        eexists; split; [|reflexivity]; reflexivity.
      + unfold channel. rewrite Hs. simpl. unfold nd_map2. simpl.
        rewrite shape_eqb_refl. simpl.
        eexists; split; [|reflexivity]; reflexivity. }
  destruct Hgreen as (e & He & Hg). exists e. split; [exact He|]. split; [exact Hg|].
  unfold Map_count_green. destruct (Map_green threshold m) as [ga m'].
  simpl in *. now subst ga.
Qed.

Lemma Map_green_on_grey_image_witness :
  ((length (shape (pixels grey_pixel)) < 3)%nat \/
   (exists h w c rest, shape (pixels grey_pixel) = h :: w :: c :: rest /\ (c < 3)%nat)) /\
  exists e, exn_type e = IndexError
            /\ fst (Map_green 0x1.199999999999ap+0%float grey_pixel) = Raise e
            /\ fst (Map_count_green 0x1.199999999999ap+0%float grey_pixel) = Raise e.
Proof.
  split; [left; simpl; lia|].
  apply (Map_green_on_grey_image grey_pixel). left. simpl. lia.
Defined.

(** ** [Greengraph]: what a run calls, and what it stores *)

Section GreengraphRuns.

Variable math_tan : float -> result float.
Variable math_asinh : float -> result float.
Variable np_linspace : float -> float -> Z -> result (list float).
Variable geocoder : trace -> string -> result (option (list location)).
Variable tile_server : trace -> http_request -> result bytes.
Variable imread : bytes -> result (ndarray Z).

(** [geolocate] asks the geocoder once and leaves the graph alone. *)
Lemma geolocate_run place (self : Greengraph) w :
  exists r,
    geolocate geocoder place self w = (r, self, (w ++ [EvGeocode place (geocoder w place)])%list)
    /\ (returns r = true -> returns (geocoder w place) = true).
Proof.
  unfold geolocate, io_bind, geocode, io_lift, io_ret.
  destruct (geocoder w place) as [[locations|]|e]; simpl.
  - destruct (list_getitem locations 0); eauto.
  - eauto.
  - eexists. split; [reflexivity|]. discriminate.
Qed.

(** A construction adds no geocoding call, and one GET when it succeeds. *)
Lemma Map__init__run latitude longitude satellite zoom w :
  exists r evs,
    Map__init__ math_tan math_asinh tile_server imread latitude longitude satellite zoom tt w
    = (r, tt, (w ++ evs)%list)
    /\ List.filter is_geocode evs = []
    /\ (returns r = true -> length (List.filter is_http_get evs) = 1%nat).
Proof.
  unfold Map__init__, io_bind, io_lift, requests_get, iio_imread, io_ret.
  destruct (deg2num _ _ _ _ _) as [xy|e]; simpl.
  - match goal with |- context [tile_server w ?r] => destruct (tile_server w r) as [content|e] end.
    + destruct (imread content) as [px|e];
        eexists; eexists; (split; [rewrite <- app_assoc; reflexivity|]); simpl; auto.
    + eexists; eexists; (split; [reflexivity|]); simpl. split; [reflexivity | discriminate].
  - exists (Raise e), []. rewrite app_nil_r. repeat split. discriminate.
Qed.

(** The comprehension over the locations: one GET per map built. *)
Lemma maps_run (self : Greengraph) (sequence : list (float * float)) w :
  exists r evs,
    io_for (fun loc => io_fresh (Map__init__ math_tan math_asinh tile_server imread
                                   (fst loc) (snd loc) true 10)) sequence self w
    = (r, self, (w ++ evs)%list)
    /\ List.filter is_geocode evs = []
    /\ (forall maps, r = Ret maps ->
          length maps = length sequence
          /\ length (List.filter is_http_get evs) = length sequence).
Proof.
  revert w. induction sequence as [|loc sequence IH]; intros w; simpl.
  - exists (Ret []), []. unfold io_ret. rewrite app_nil_r.
    split; [reflexivity|]. split; [reflexivity|]. intros maps [= <-]. auto.
  - unfold io_bind at 1, io_fresh at 1.
    destruct (Map__init__run (fst loc) (snd loc) true 10 w) as (r1 & evs1 & -> & Hg1 & Hh1).
    destruct r1 as [m|e].
    + destruct (IH (w ++ evs1)%list) as (r2 & evs2 & Hrun & Hg2 & Hh2).
      unfold io_bind at 1. rewrite Hrun. destruct r2 as [ms|e].
      * exists (Ret (m :: ms)), (evs1 ++ evs2)%list. unfold io_ret.
        rewrite app_assoc. split; [reflexivity|].
        rewrite !List.filter_app, Hg1, Hg2. split; [reflexivity|].
        intros maps [= <-]. destruct (Hh2 ms eq_refl) as [Hl Hn].
        rewrite length_app, Hh1, Hn by reflexivity. simpl. auto.
      * exists (Raise e), (evs1 ++ evs2)%list. rewrite app_assoc. split; [reflexivity|].
        rewrite !List.filter_app, Hg1, Hg2. split; [reflexivity|]. discriminate.
    + exists (Raise e), evs1. split; [reflexivity|]. split; [exact Hg1|]. discriminate.
Qed.

(** A comprehension over a function that calls nothing calls nothing. *)
Lemma pure_for_run {St A B} (f : A -> result B) (xs : list A) (st : St) w :
  exists r,
    io_for (fun x => io_lift (f x)) xs st w = (r, st, w)
    /\ (forall ys, r = Ret ys -> length ys = length xs).
Proof.
  induction xs as [|x xs (r & Hrun & Hlen)]; simpl.
  - exists (Ret []). split; [reflexivity|]. now intros ys [= <-].
  - unfold io_bind at 1, io_lift at 1. destruct (f x) as [y|e].
    + unfold io_bind at 1. rewrite Hrun. destruct r as [ys|e].
      * exists (Ret (y :: ys)). split; [reflexivity|].
        intros ys' [= <-]. simpl. now rewrite (Hlen ys).
      * exists (Raise e). split; [reflexivity|]. discriminate.
    + exists (Raise e). split; [reflexivity|]. discriminate.
Qed.

Lemma io_bind_run {St A B} (m : io St A) (k : A -> io St B) st w a st' w' :
  m st w = (Ret a, st', w') -> io_bind m k st w = k a st' w'.
Proof. intros H. unfold io_bind. now rewrite H. Qed.

Lemma io_bind_raise {St A B} (m : io St A) (k : A -> io St B) st w e st' w' :
  m st w = (Raise e, st', w') -> io_bind m k st w = (Raise e, st', w').
Proof. intros H. unfold io_bind. now rewrite H. Qed.

(** What a run of [green_between] does to the graph and to the trace. *)
Lemma green_between_outcome (n : Z) (self : Greengraph) (w : trace) :
  exists r evs,
    green_between math_tan math_asinh np_linspace geocoder tile_server imread n self w
    = (r, match r with
          | Ret counts => with_result self n counts
          | Raise _ => with_steps self n
          end, (w ++ evs)%list)
    /\ (forall counts, r = Ret counts ->
          length (List.filter is_geocode evs) = 2%nat
          /\ length (List.filter is_http_get evs) = length counts).
Proof.
  unfold green_between.
  erewrite io_bind_run by reflexivity. erewrite io_bind_run by reflexivity.
  fold (with_steps self n). cbn [start end_ with_steps].
  destruct (geolocate_run (start self) (with_steps self n) w) as (r1 & H1 & _).
  destruct r1 as [s|e].
  2: { erewrite io_bind_raise by exact H1. exists (Raise e); eexists. split; [reflexivity|]. discriminate. }
  erewrite io_bind_run by exact H1.
  set (w1 := (w ++ [EvGeocode (start self) (geocoder w (start self))])%list).
  destruct (geolocate_run (end_ self) (with_steps self n) w1) as (r2 & H2 & _).
  destruct r2 as [e'|e].
  2: { erewrite io_bind_raise by exact H2. subst w1. rewrite <- app_assoc.
       exists (Raise e); eexists. split; [reflexivity|]. discriminate. }
  erewrite io_bind_run by exact H2.
  set (w2 := (w1 ++ [EvGeocode (end_ self) (geocoder w1 (end_ self))])%list).
  destruct (location_sequence np_linspace s e' n) as [sequence|e].
  2: { erewrite io_bind_raise by reflexivity. subst w2 w1. rewrite <- app_assoc.
       exists (Raise e); eexists. split; [reflexivity|]. discriminate. }
  erewrite io_bind_run by reflexivity.
  destruct (maps_run (with_steps self n) sequence w2) as (r3 & evs3 & H3 & Hg3 & Hh3).
  destruct r3 as [maps|e].
  2: { erewrite io_bind_raise by exact H3. subst w2 w1. rewrite <- !app_assoc.
       exists (Raise e); eexists. split; [reflexivity|]. discriminate. }
  erewrite io_bind_run by exact H3.
  destruct (pure_for_run
              (fun current_map => fst (Map_count_green 0x1.199999999999ap+0%float current_map))
              maps (with_steps self n) (w2 ++ evs3)%list) as (r4 & H4 & Hl4).
  destruct r4 as [counts|e].
  2: { erewrite io_bind_raise by exact H4. subst w2 w1. rewrite <- !app_assoc.
       exists (Raise e); eexists. split; [reflexivity|]. discriminate. }
  erewrite io_bind_run by exact H4.
  erewrite io_bind_run by reflexivity.
  subst w2 w1. rewrite <- !app_assoc. simpl.
  exists (Ret counts). eexists. split; [reflexivity|].
  intros counts' [= <-]. destruct (Hh3 maps eq_refl) as [Hm Hn].
  simpl. rewrite Hg3, Hn, (Hl4 counts eq_refl), Hm. split; reflexivity.
Qed.

(** X7: a run of [green_between(steps)] stores [steps] first.  When it
    returns, it has asked the geocoder exactly twice and the tile server
    exactly once per count returned, and it has stored the counts; when it
    raises, [steps] is stored all the same and the stored counts are the ones
    that were there before. *)
Theorem green_between_run (n : Z) (self : Greengraph) (w : trace) :
  exists r evs,
    green_between math_tan math_asinh np_linspace geocoder tile_server imread n self w
    = (r, match r with
          | Ret counts => with_result self n counts
          | Raise _ => with_steps self n
          end, (w ++ evs)%list)
    /\ (forall counts, r = Ret counts ->
          length (List.filter is_geocode evs) = 2%nat
          /\ length (List.filter is_http_get evs) = length counts).
Proof. apply green_between_outcome. Qed.

(** The drawing part of [plot_green_between], once the data are there. *)
Lemma plot_cached_outcome (n : Z) (st : session) (w : trace) (data : list Z) :
  green_at_each_location (graph st) = Some data ->
  stored_steps (graph st) = Some n ->
  plot_green_between math_tan math_asinh np_linspace geocoder tile_server imread n st w
  = (Ret tt,
     {| graph := graph st; figure := (figure st ++ green_plot (graph st) n data)%list |},
     w).
Proof.
  intros Hdata Hsteps. unfold plot_green_between.
  erewrite io_bind_run by reflexivity. rewrite Hdata, Hsteps, Z.eqb_refl. simpl.
  unfold io_bind, io_ret, plt, io_get, green_plot. simpl.
  now rewrite <- !app_assoc.
Qed.

(** The other branch: the data are computed by [green_between]. *)
Lemma plot_computed_outcome (n : Z) (st : session) (w : trace) :
  green_at_each_location (graph st) = None
  \/ (exists s, stored_steps (graph st) = Some s /\ s <> n) ->
  plot_green_between math_tan math_asinh np_linspace geocoder tile_server imread n st w
  = match green_between math_tan math_asinh np_linspace geocoder tile_server imread
            n (graph st) w with
    | (Ret counts, g, w') =>
        (Ret tt, {| graph := g; figure := (figure st ++ green_plot g n counts)%list |}, w')
    | (Raise e, g, w') => (Raise e, {| graph := g; figure := figure st |}, w')
    end.
Proof.
  intros Hmiss. unfold plot_green_between.
  erewrite io_bind_run by reflexivity.
  assert (Hbranch :
    match green_at_each_location (graph st) with
    | None =>
        io_on_graph (green_between math_tan math_asinh np_linspace geocoder
                       tile_server imread n)
    | Some stored =>
        match stored_steps (graph st) with
        | None =>
            io_lift (Raise (Exn (OtherError "AttributeError")
                              "'Greengraph' object has no attribute 'steps'"))
        | Some self_steps =>
            if negb (n =? self_steps)
            then io_on_graph (green_between math_tan math_asinh np_linspace geocoder
                                tile_server imread n)
            else io_ret stored
        end
    end = io_on_graph (green_between math_tan math_asinh np_linspace geocoder
                         tile_server imread n)).
  { destruct Hmiss as [-> | (s & -> & Hs)]; [reflexivity|].
    destruct (green_at_each_location (graph st)); [|reflexivity].
    destruct (Z.eqb_spec n s); [congruence | reflexivity]. }
  rewrite Hbranch. clear Hbranch.
  unfold io_bind at 1, io_on_graph.
  destruct (green_between _ _ _ _ _ _ n (graph st) w) as [[[counts|e] g] w'];
    [|reflexivity].
  unfold io_bind, io_ret, plt, io_get, green_plot. simpl.
  now rewrite <- !app_assoc.
Qed.

(** X8: when the graph holds a result and [steps] is the stored one,
    [plot_green_between(steps)] calls nothing outside, leaves the graph as it
    is, and draws the stored data. *)
Theorem plot_green_between_cached (n : Z) (st : session) (w : trace) (data : list Z) :
  green_at_each_location (graph st) = Some data ->
  stored_steps (graph st) = Some n ->
  plot_green_between math_tan math_asinh np_linspace geocoder tile_server imread n st w
  = (Ret tt,
     {| graph := graph st; figure := (figure st ++ green_plot (graph st) n data)%list |},
     w).
Proof. apply plot_cached_outcome. Qed.

(** X9: after a [plot_green_between(steps)] that returned, the same call
    again makes no outside call at all and draws the same data again. *)
Theorem plot_green_between_twice (n : Z) (st : session) (w : trace) :
  let run := plot_green_between math_tan math_asinh np_linspace geocoder tile_server imread
               n st w in
  fst (fst run) = Ret tt ->
  exists data,
    figure (snd (fst run)) = (figure st ++ green_plot (graph (snd (fst run))) n data)%list /\
    plot_green_between math_tan math_asinh np_linspace geocoder tile_server imread
      n (snd (fst run)) (snd run)
    = (Ret tt,
       {| graph := graph (snd (fst run));
          figure := (figure (snd (fst run))
                     ++ green_plot (graph (snd (fst run))) n data)%list |},
       snd run).
Proof.
  intros run. subst run.
  destruct (green_at_each_location (graph st)) as [data|] eqn:Hdata.
  - destruct (stored_steps (graph st)) as [s|] eqn:Hs.
    + destruct (Z.eq_dec s n) as [->|Hne].
      * rewrite (plot_cached_outcome n st w data Hdata Hs). simpl. intros _.
        exists data. split; [reflexivity|].
        now rewrite plot_cached_outcome with (data := data).
      * rewrite plot_computed_outcome by (right; eauto).
        destruct (green_between_outcome n (graph st) w) as (r & evs & -> & _).
        destruct r as [counts|e]; simpl; [|discriminate]. intros _.
        exists counts. split; [reflexivity|].
        now rewrite plot_cached_outcome with (data := counts).
    + unfold plot_green_between. erewrite io_bind_run by reflexivity.
      rewrite Hdata, Hs. simpl. discriminate.
  - rewrite plot_computed_outcome by (now left).
    destruct (green_between_outcome n (graph st) w) as (r & evs & -> & _).
    destruct r as [counts|e]; simpl; [|discriminate]. intros _.
    exists counts. split; [reflexivity|].
    now rewrite plot_cached_outcome with (data := counts).
Qed.

(** X10: the cache can go stale.  When the graph holds the result of an
    earlier run and [green_between(steps)] raises, [steps] is stored already:
    a following [plot_green_between(steps)] makes no outside call and draws
    the earlier result, whatever number of steps it was computed for. *)
Theorem plot_green_between_after_failure (n : Z) (self : Greengraph) (w : trace)
  (old : list Z) (fig : list plot_call) :
  let run := green_between math_tan math_asinh np_linspace geocoder tile_server imread
               n self w in
  green_at_each_location self = Some old ->
  returns (fst (fst run)) = false ->
  plot_green_between math_tan math_asinh np_linspace geocoder tile_server imread
    n {| graph := snd (fst run); figure := fig |} (snd run)
  = (Ret tt,
     {| graph := snd (fst run); figure := (fig ++ green_plot self n old)%list |},
     snd run).
Proof.
  intros run Hold. subst run.
  destruct (green_between_outcome n self w) as (r & evs & -> & _).
  destruct r as [counts|e]; simpl; [discriminate|]. intros _.
  now rewrite plot_cached_outcome with (data := old).
Qed.

End GreengraphRuns.

(** ** [Greengraph], run in the closed environment *)

Lemma plot_green_between_cached_witness :
  let st := {| graph := london_oxford_measured; figure := [] |} in
  green_at_each_location (graph st) = Some [5; 7] /\
  stored_steps (graph st) = Some 2 /\
  plot_green_between tan_first_order asinh_first_order endpoints_linspace failing_geocoder
    constant_server raw_rgb_decoder 2 st []
  = (Ret tt,
     {| graph := graph st; figure := (figure st ++ green_plot (graph st) 2 [5; 7])%list |},
     []).
Proof.
  split; [reflexivity|]. split; [reflexivity|].
  apply (plot_green_between_cached tan_first_order asinh_first_order endpoints_linspace
           failing_geocoder constant_server raw_rgb_decoder 2
           {| graph := london_oxford_measured; figure := [] |} [] [5; 7]); reflexivity.
Defined.

Lemma plot_green_between_twice_witness :
  let run := plot_green_between tan_first_order asinh_first_order endpoints_linspace
               origin_geocoder constant_server raw_rgb_decoder
               2 {| graph := london_oxford; figure := [] |} [] in
  fst (fst run) = Ret tt /\
  exists data,
    figure (snd (fst run)) = ([] ++ green_plot (graph (snd (fst run))) 2 data)%list /\
    plot_green_between tan_first_order asinh_first_order endpoints_linspace
      origin_geocoder constant_server raw_rgb_decoder 2 (snd (fst run)) (snd run)
    = (Ret tt,
       {| graph := graph (snd (fst run));
          figure := (figure (snd (fst run))
                     ++ green_plot (graph (snd (fst run))) 2 data)%list |},
       snd run).
Proof.
  split; [vm_compute; reflexivity|].
  apply (plot_green_between_twice tan_first_order asinh_first_order endpoints_linspace
           origin_geocoder constant_server raw_rgb_decoder
           2 {| graph := london_oxford; figure := [] |} []).
  vm_compute. reflexivity.
Defined.

Lemma plot_green_between_after_failure_witness :
  let run := green_between tan_first_order asinh_first_order endpoints_linspace
               failing_geocoder constant_server raw_rgb_decoder
               3 london_oxford_measured [] in
  green_at_each_location london_oxford_measured = Some [5; 7] /\
  returns (fst (fst run)) = false /\
  plot_green_between tan_first_order asinh_first_order endpoints_linspace
    failing_geocoder constant_server raw_rgb_decoder
    3 {| graph := snd (fst run); figure := [] |} (snd run)
  = (Ret tt,
     {| graph := snd (fst run);
        figure := ([] ++ green_plot london_oxford_measured 3 [5; 7])%list |},
     snd run).
Proof.
  split; [reflexivity|]. split; [reflexivity|].
  apply (plot_green_between_after_failure tan_first_order asinh_first_order
           endpoints_linspace failing_geocoder constant_server raw_rgb_decoder
           3 london_oxford_measured [] [5; 7] []); reflexivity.
Defined.

Example london_oxford_run :
  fst (fst (green_between tan_first_order asinh_first_order endpoints_linspace
              origin_geocoder constant_server raw_rgb_decoder 2 london_oxford []))
  = Ret [1; 1].
Proof. vm_compute. reflexivity. Qed.

(** ** Arithmetic on [number], on values *)

Example number_truediv_values :
  number_truediv (NInt 10) (NInt 4) = Ret (NFloat 2.5%float) /\
  number_truediv (NInt 1) (NInt 3) = Ret (NFloat 0x1.5555555555555p-2%float) /\
  number_truediv (NInt (-7)) (NInt 2) = Ret (NFloat (-3.5)%float) /\
  number_truediv (NInt (2 ^ 1100)) (NInt (2 ^ 1000)) = Ret (NFloat 0x1p+100%float) /\
  number_truediv (NInt (10 ^ 400)) (NInt (10 ^ 399)) = Ret (NFloat 10%float) /\
  number_truediv (NInt (2 ^ 53 + 1)) (NInt 1) = Ret (NFloat 0x1p+53%float) /\
  number_truediv (NInt (2 ^ 53 + 3)) (NInt 1) = Ret (NFloat 0x1.0000000000002p+53%float) /\
  number_truediv (NInt 0) (NInt 5) = Ret (NFloat 0%float) /\
  returns (number_truediv (NInt (2 ^ 1100)) (NInt 1)) = false /\
  number_truediv (NInt 1) (NFloat 4%float) = Ret (NFloat 0.25%float) /\
  returns (number_truediv (NFloat 1%float) (NFloat (-0)%float)) = false /\
  number_add (NInt 1) (NFloat 0.5%float) = Ret (NFloat 1.5%float) /\
  number_sub (NInt 5) (NInt 7) = Ret (NInt (-2)) /\
  returns (number_mul (NInt (2 ^ 1024)) (NFloat 1%float)) = false.
Proof. vm_compute. repeat split. Qed.

(** ** [Calculator]: the other methods *)

(** X11: [divide] with a true [check_zero] (the default) answers a zero [b]
    (0, 0.0 or -0.0) with [None]; it returns [None] in no other case; with
    [check_zero] false or [None], a zero [b] always raises: ZeroDivisionError,
    or OverflowError when [a] is an int too large for a float. *)
Theorem divide_zero_guard (self : Calculator.t) (b : number) (check_zero : option bool) :
  (truthy check_zero = true -> number_is_zero b = true ->
   CalculatorMethods.divide self b check_zero = Ret None) /\
  (CalculatorMethods.divide self b check_zero = Ret None ->
   truthy check_zero = true /\ number_is_zero b = true) /\
  (truthy check_zero = false -> number_is_zero b = true ->
   exists e, CalculatorMethods.divide self b check_zero = Raise e
             /\ (exn_type e = ZeroDivisionError \/ exn_type e = OverflowError)).
Proof.
  unfold CalculatorMethods.divide. split; [|split].
  - intros -> ->. reflexivity.
  - destruct (truthy check_zero && number_is_zero b) eqn:Hg.
    + intros _. now apply andb_true_iff in Hg.
    + destruct (number_truediv _ b); discriminate.
  - intros -> Hb. simpl. destruct (Calculator.a self) as [n|x], b as [m|y]; simpl in Hb.
    + apply Z.eqb_eq in Hb. subst m. simpl. eauto.
    + simpl. unfold float_of_int. destruct (_ <=? _); simpl; [eauto|].
      rewrite Hb. eauto.
    + apply Z.eqb_eq in Hb. subst m. vm_compute. eauto.
    + simpl. rewrite Hb. eauto.
Qed.

Example divide_values :
  CalculatorMethods.divide {| Calculator.a := NInt 1 |} (NInt 0) (Some true) = Ret None /\
  CalculatorMethods.divide {| Calculator.a := NInt 1 |} (NInt 4) (Some true)
  = Ret (Some (NFloat 0.25%float)) /\
  returns (CalculatorMethods.divide {| Calculator.a := NInt 1 |} (NFloat 0%float) None) = false.
Proof. vm_compute. repeat split. Qed.

(** X12: the [idx] of the three earlier versions of [Calculator] never looks
    at [self]: it raises NameError in a module without a global [a], and
    otherwise does what the final [idx] does for a calculator holding that
    global. *)
Theorem idx_reads_the_global {Sq T} `{!Sequence Sq T} (global_a : option number)
  (self : Calculator.t) (sqnc : Sq) :
  idx_reading_global global_a self sqnc
  = match global_a with
    | None => Raise (Exn NameError "name 'a' is not defined")
    | Some a => Calculator.idx {| Calculator.a := a |} sqnc
    end.
Proof. destruct global_a; reflexivity. Qed.

(** ** [partial_derivative] *)

Lemma list_getitem_axis_index {T} (xs : list T) (i : Z) :
  list_getitem xs i
  = match axis_index (length xs) i with
    | Some j =>
        match xs !! j with
        | Some x => Ret x
        | None => Raise (Exn IndexError "list index out of range")
        end
    | None => Raise (Exn IndexError "list index out of range")
    end.
Proof.
  unfold list_getitem, axis_index.
  set (j := if i <? 0 then i + Z.of_nat (length xs) else i).
  destruct (Z.ltb_spec j 0), (Z.leb_spec 0 j), (Z.leb_spec (Z.of_nat (length xs)) j),
    (Z.ltb_spec j (Z.of_nat (length xs))); simpl; try lia; reflexivity.
Qed.

Lemma axis_index_lt n i j : axis_index n i = Some j -> (j < n)%nat.
Proof.
  unfold axis_index. destruct (_ && _) eqn:H; [|discriminate]. intros [= <-].
  apply andb_true_iff in H as [H1 H2]. apply Z.leb_le in H1. apply Z.ltb_lt in H2.
  destruct (i <? 0); lia.
Qed.

(** What a run of [partial_derivative] does, in terms of the contents of
    [at]. *)
Lemma partial_derivative_outcome (function : list number -> result number)
  (at_ : nat) (direction : Z) (delta : number) (st : pystate) (w : trace)
  (xs : list number) :
  heap st !! at_ = Some xs ->
  heap st !! next_id st = None ->
  exists r st',
    partial_derivative function at_ direction delta st w = (r, st', w) /\
    heap st' !! at_ = Some xs /\
    match function xs with
    | Raise e => r = Raise e /\ calls st' = (calls st ++ [xs])%list
    | Ret f_x =>
        match shifted xs direction delta with
        | Raise e => r = Raise e /\ calls st' = (calls st ++ [xs])%list
        | Ret xs' =>
            calls st' = (calls st ++ [xs; xs'])%list /\
            heap st' !! next_id st = Some xs' /\
            r = match function xs' with
                | Raise e => Raise e
                | Ret f_x_plus_delta => difference_quotient f_x f_x_plus_delta delta
                end
        end
    end.
Proof.
  intros Hat Hfresh.
  assert (Hne : at_ <> next_id st) by congruence.
  unfold partial_derivative, call_with, list_copy, list_iadd, list_read, list_write,
    io_bind, io_lift, shifted, difference_quotient.
  simpl. rewrite Hat. simpl.
  destruct (function xs) as [f_x|e]; simpl.
  2: { eexists; eexists. split; [reflexivity|]. simpl. auto. }
  rewrite Hat. simpl. rewrite lookup_insert_eq. simpl.
  rewrite list_getitem_axis_index.
  destruct (axis_index (length xs) direction) as [i|] eqn:Hi; simpl.
  2: { eexists; eexists. split; [reflexivity|]. simpl.
       rewrite lookup_insert_ne by congruence. auto. }
  destruct (xs !! i) as [x|] eqn:Hx; simpl.
  2: { eexists; eexists. split; [reflexivity|]. simpl.
       rewrite lookup_insert_ne by congruence. auto. }
  destruct (number_add x delta) as [x'|e]; simpl.
  2: { eexists; eexists. split; [reflexivity|]. simpl.
       rewrite lookup_insert_ne by congruence. auto. }
  rewrite lookup_insert_eq. simpl.
  destruct (function (<[i:=x']> xs)) as [f2|e]; simpl.
  - destruct (number_sub f2 f_x) as [d|e]; simpl;
      eexists; eexists; (split; [reflexivity|]); simpl;
      rewrite !lookup_insert_ne by congruence; rewrite lookup_insert_eq, <- app_assoc;
      auto.
  - eexists; eexists; (split; [reflexivity|]); simpl.
    rewrite !lookup_insert_ne by congruence. rewrite lookup_insert_eq, <- app_assoc. auto.
Qed.

(** X13. [partial_derivative] calls [function] exactly twice, first on the
    contents of [at] and then on a copy with [delta] added at [direction]; it
    returns the difference of the two values over [delta], and the caller's
    list [at] has the contents it had before the call.  Here [function] only
    reads its argument, [at] is a list object, and both calls return. *)
Theorem partial_derivative_two_calls (function : list number -> result number)
  (at_ : nat) (direction : Z) (delta : number) (st : pystate) (w : trace)
  (xs xs' : list number) (f_x f_x_plus_delta : number) :
  heap st !! at_ = Some xs ->
  heap st !! next_id st = None ->
  function xs = Ret f_x ->
  shifted xs direction delta = Ret xs' ->
  function xs' = Ret f_x_plus_delta ->
  exists st',
    partial_derivative function at_ direction delta st w
    = (difference_quotient f_x f_x_plus_delta delta, st', w) /\
    calls st' = (calls st ++ [xs; xs'])%list /\
    heap st' !! at_ = Some xs.
Proof.
  intros Hat Hfresh H1 Hs H2.
  destruct (partial_derivative_outcome function at_ direction delta st w xs Hat Hfresh)
    as (r & st' & Hrun & Hkept & Hcase).
  rewrite H1, Hs in Hcase. destruct Hcase as (Hcalls & _ & ->). rewrite H2 in Hrun.
  exists st'. auto.
Qed.

Lemma partial_derivative_two_calls_witness :
  let st := {| heap := {[ 0%nat := [NInt 0; NInt 0; NInt 0] ]}; next_id := 1; calls := [] |} in
  exists st',
    partial_derivative sum_left_to_right 0 1 (NFloat 1) st []
    = (Ret (NFloat 1), st', []) /\
    calls st' = [[NInt 0; NInt 0; NInt 0]; [NInt 0; NFloat 1; NInt 0]] /\
    heap st' !! 0%nat = Some [NInt 0; NInt 0; NInt 0].
Proof.
  intro st.
  apply (partial_derivative_two_calls sum_left_to_right 0 1 (NFloat 1) st []
           [NInt 0; NInt 0; NInt 0] [NInt 0; NFloat 1; NInt 0] (NInt 0) (NFloat 1));
    vm_compute; reflexivity.
Defined.



(** ** [append_to_list] *)

Lemma append_to_list_run (default : nat) (el : number) (lst : option nat)
  (st : pystate) (w : trace) (xs : list number) :
  let l := match lst with Some l => l | None => default end in
  heap st !! l = Some xs ->
  append_to_list default el lst st w
  = (Ret l, {| heap := <[l := (xs ++ [el])%list]> (heap st); next_id := next_id st;
               calls := calls st |}, w).
Proof.
  intros l H. unfold append_to_list, list_append, list_read, list_write, io_bind, io_ret.
  fold l. now rewrite H.
Qed.

Lemma append_to_list_default_run (default : nat) (els : list number) :
  forall (st : pystate) (w : trace) (xs : list number),
    heap st !! default = Some xs ->
    io_for (fun el => append_to_list default el None) els st w
    = (Ret (map (fun _ => default) els),
       match els with
       | [] => st
       | _ => {| heap := <[default := (xs ++ els)%list]> (heap st); next_id := next_id st;
                 calls := calls st |}
       end, w).
Proof.
  induction els as [|el els IH]; intros st w xs H; [reflexivity|].
  cbn [io_for]. erewrite io_bind_run by (apply (append_to_list_run default el None); exact H).
  erewrite io_bind_run.
  2: { apply (IH _ w (xs ++ [el])%list). simpl. apply lookup_insert_eq. }
  unfold io_ret. simpl. f_equal. f_equal.
  destruct els as [|el' els]; [reflexivity|].
  simpl. rewrite insert_insert_eq, <- app_assoc. reflexivity.
Qed.

(** X15. [append_to_list] called without a list works on one and the same
    list object every time: a series of such calls returns that object each
    time, and the object ends up holding everything that was ever appended,
    after what it held before; no other list is touched. *)
Theorem append_to_list_default_is_shared (default : nat) (els : list number)
  (st : pystate) (w : trace) (xs : list number) :
  heap st !! default = Some xs ->
  exists st',
    io_for (fun el => append_to_list default el None) els st w
    = (Ret (map (fun _ => default) els), st', w) /\
    heap st' !! default = Some (xs ++ els)%list /\
    (forall l, l <> default -> heap st' !! l = heap st !! l).
Proof.
  intros H. eexists. split; [apply append_to_list_default_run; exact H|].
  destruct els as [|el els]; simpl.
  - rewrite app_nil_r. auto.
  - rewrite lookup_insert_eq. split; [reflexivity|].
    intros l Hl. now rewrite lookup_insert_ne by congruence.
Qed.

Lemma append_to_list_default_is_shared_witness :
  exists st',
    io_for (fun el => append_to_list 0 el None) [NInt 0; NInt 1]
      {| heap := {[ 0%nat := [] ]}; next_id := 1; calls := [] |} []
    = (Ret [0%nat; 0%nat], st', []) /\
    heap st' !! 0%nat = Some [NInt 0; NInt 1] /\
    (forall l, l <> 0%nat ->
       heap st' !! l
       = heap {| heap := {[ 0%nat := [] ]}; next_id := 1; calls := [] |} !! l).
Proof.
  apply (append_to_list_default_is_shared 0 [NInt 0; NInt 1]
           {| heap := {[ 0%nat := [] ]}; next_id := 1; calls := [] |} [] []).
  reflexivity.
Defined.

(** [append_to_list] with a list of the caller's appends to that very list
    and returns it; the default list is left as it was. *)
Lemma append_to_list_explicit (default l : nat) (el : number)
  (st : pystate) (w : trace) (xs : list number) :
  heap st !! l = Some xs ->
  l <> default ->
  exists st',
    append_to_list default el (Some l) st w = (Ret l, st', w) /\
    heap st' !! l = Some (xs ++ [el])%list /\
    heap st' !! default = heap st !! default.
Proof.
  intros H Hne. eexists. split; [apply (append_to_list_run default el (Some l)); exact H|].
  simpl. rewrite lookup_insert_eq, lookup_insert_ne by congruence. auto.
Qed.

Lemma append_to_list_explicit_witness :
  exists st',
    append_to_list 0 (NInt 7) (Some 1%nat)
      {| heap := <[ 1%nat := [NInt 5] ]> {[ 0%nat := [NInt 0] ]}; next_id := 2; calls := [] |} []
    = (Ret 1%nat, st', []) /\
    heap st' !! 1%nat = Some [NInt 5; NInt 7] /\
    heap st' !! 0%nat
    = heap {| heap := <[ 1%nat := [NInt 5] ]> {[ 0%nat := [NInt 0] ]}; next_id := 2;
              calls := [] |} !! 0%nat.
Proof.
  apply (append_to_list_explicit 0 1 (NInt 7)
           {| heap := <[ 1%nat := [NInt 5] ]> {[ 0%nat := [NInt 0] ]}; next_id := 2;
              calls := [] |} [] [NInt 5]).
  - reflexivity.
  - discriminate.
Defined.

(** ** [smart_square] with and without its last branch *)

(** X16. Removing the [NotImplementedError] branch of [smart_square] changes
    nothing for an argument of one of the four annotated types ([int],
    [float], [bool], [str]): the two versions return or raise the same.  On
    every argument of another class ([None], a plain object) the first
    version raises [NotImplementedError] and the second falls off the end and
    returns [None]. *)
Theorem smart_square_without_dead_code (float_of_str : string -> option float)
  (float_of_int : Z -> result float) (a : pyval) :
  WithoutDeadCode.smart_square float_of_str float_of_int a
  = (if isinstance a [TFloat; TInt; TBool; TStr]
     then smart_square float_of_str float_of_int a
     else Ret PNone)
  /\ (isinstance a [TFloat; TInt; TBool; TStr] = false ->
      smart_square float_of_str float_of_int a = Raise (Exn NotImplementedError EmptyString)).
Proof.
  split.
  - destruct a; reflexivity.
  - destruct a; simpl; intros H; try discriminate H; reflexivity.
Qed.

Example smart_square_on_other_classes :
  smart_square float_of_test_literal (fun n => Ret (float_of_Z n)) (PObject "list")
  = Raise (Exn NotImplementedError EmptyString) /\
  WithoutDeadCode.smart_square float_of_test_literal (fun n => Ret (float_of_Z n))
    (PObject "list") = Ret PNone /\
  WithoutDeadCode.smart_square float_of_test_literal (fun n => Ret (float_of_Z n)) (PStr "2")
  = smart_square float_of_test_literal (fun n => Ret (float_of_Z n)) (PStr "2").
Proof. repeat split. Qed.

(** ** The model validator against the calendar *)

(** One leaf of the comparison: both verdicts are known, and either they
    agree or one of the three cases holds. *)
Ltac calendar_leaf :=
  split;
  [ intros Hne; first
      [ exfalso; apply Hne; reflexivity
      | left; split; [reflexivity | lia]
      | right; left; repeat split;
        first [assumption | lia | (Z.div_mod_to_equations; lia)]
      | right; right; repeat split;
        first [assumption | lia | (Z.div_mod_to_equations; lia)] ]
  | intros [[Hm Hd]|[(Hm & Hy & Hd)|(Hm & Hy1 & Hy2 & Hd)]];
    first [ congruence | exfalso; lia | exfalso; Z.div_mod_to_equations; lia ] ].

(** X17. The body of the model validator, called by hand on a dict of the
    four fields (pydantic itself passes the instance, on which the first
    subscript raises), and the calendar: with a space in the name they
    disagree in exactly three cases: day 31 of a 30-day month (accepted), a
    day 1..28 of February in a year not divisible by 4 (rejected), and 29
    February of a century year not divisible by 400 (accepted). *)
Theorem model_validator_versus_calendar (d : Person) :
  has_space (name d) ->
  PersonModelValidated.accepts (PersonModelValidated.Dict d)
  <> birth_day_valid (birth_day d) (birth_month d) (birth_year d)
  <->
  (int_in (birth_month d) [4; 6; 9; 11] = true /\ birth_day d = 31) \/
  (birth_month d = 2 /\ birth_year d mod 4 <> 0 /\ 1 <= birth_day d <= 28) \/
  (birth_month d = 2 /\ birth_year d mod 100 = 0 /\ birth_year d mod 400 <> 0 /\
   birth_day d = 29).
Proof.
  intros H. apply str_in_space in H.
  unfold PersonModelValidated.accepts, birth_day_valid, between, is_leap_year, int_in.
  on_dict. rewrite H. simpl. destruct d as [d m y n]; simpl in *. clear H.
  rewrite !Z.gtb_ltb.
  repeat (match goal with
          | |- context [?a =? ?b] => destruct (Z.eqb_spec a b); [try subst a|]
          | |- context [?a <? ?b] => destruct (Z.ltb_spec a b)
          | |- context [?a <=? ?b] => destruct (Z.leb_spec a b)
          end; simpl; try (exfalso; lia)).
  all: calendar_leaf.
Qed.

Lemma model_validator_versus_calendar_witness :
  PersonModelValidated.accepts
    (PersonModelValidated.Dict
       {| birth_day := 31; birth_month := 4; birth_year := 2002; name := "Saransh Chopra" |})
  <> birth_day_valid 31 4 2002.
Proof.
  apply (proj2 (model_validator_versus_calendar
                  {| birth_day := 31; birth_month := 4; birth_year := 2002;
                     name := "Saransh Chopra" |}
                  ltac:(unfold has_space; simpl; auto 20))).
  left. split; reflexivity.
Defined.
